(** * The inet extension: text to IPv4 address conversion

    A shallow embedding of [src/extension/inet/inet-extension.cpp]:
    the error helper [IPAddressError], the jump-structured scanner
    [TryParseIPAddress], the batch cast [VarcharToINETCast] and the reverse
    cast stub [INETToVarcharCast], followed by the properties established
    about them. *)

From Stdlib Require Import ZArith String Ascii Lia Bool.
From stdpp Require Import base option list.

Local Open Scope Z_scope.

(** ** Machine integers *)

(** Two's-complement wrap-around of a 32-bit signed integer ([int32_t]). *)
Definition wrap_int32 (z : Z) : Z := (z + 2 ^ 31) mod 2 ^ 32 - 2 ^ 31.

(** Byte [k] of an integer in two's-complement representation; on a
    [hugeint_t] this is byte [k] of its 128-bit pattern for [k < 16]. *)
Definition byte_of (z : Z) (k : Z) : Z := Z.land (Z.shiftr z (8 * k)) 255.

(** ** Strings *)

(** The double-quote character, code 34. *)
Definition dquote : ascii := Ascii false true false false false true false false.

(** [data[c] >= '0' && data[c] <= '9'] *)
Definition is_digit (ch : ascii) : bool :=
  (48 <=? Z.of_nat (nat_of_ascii ch)) && (Z.of_nat (nat_of_ascii ch) <=? 57).

(** Value of a decimal digit character. *)
Definition digit_value (ch : ascii) : Z := Z.of_nat (nat_of_ascii ch) - 48.

(** Decimal value of a digit string, most significant digit first. *)
Fixpoint digits_value_from (acc : Z) (s : string) : Z :=
  match s with
  | EmptyString => acc
  | String ch s' => digits_value_from (10 * acc + digit_value ch) s'
  end.

Definition digits_value (s : string) : Z := digits_value_from 0 s.

Fixpoint all_digits (s : string) : bool :=
  match s with
  | EmptyString => true
  | String ch s' => is_digit ch && all_digits s'
  end.

(** Modelled from the spec: the host's [TryCast::Operation<string_t, uint8_t>]
    is not part of this repository.  The spec (External Interfaces) requires
    of it that it "rejects empty input, non-digit characters, and values
    outside [0,255], returning a boolean/result rather than throwing".  The
    scanner only ever hands it a non-empty run of ASCII digits. *)
Definition TryCast_uint8 (s : string) : option Z :=
  match s with
  | EmptyString => None
  | String _ _ =>
      if all_digits s then
        if digits_value s <=? 255 then Some (digits_value s) else None
      else None
  end.

(** ** The address value *)

(** [struct IPAddress { hugeint_t address; int32_t mask; }] *)
Record IPAddress := { address : Z; mask : Z }.

(** What a call of [TryParseIPAddress] hands back: [true] with the filled
    [IPAddress &result], or [false] with the message assigned through
    [error_message].  After [false] no caller reads [result]. *)
Inductive ParseResult :=
| ParseOk (result : IPAddress)
| ParseError (error_message : string).

(** Modelled from the spec: the host's [HandleCastError::AssignError] is not
    part of this repository; per the spec (Error Handling Design) "parser
    failures are returned as values ... carrying a fully formatted message".

    [IPAddressError]: builds the message and returns [false]. *)
Definition IPAddressError (input : string) (error : string) : ParseResult :=
  let e := (("Failed to convert string " ++ String dquote "") ++ input
            ++ (String dquote " to inet: ") ++ error)%string in
  ParseError e.

(** ** The scanner *)

(** The three labelled blocks of [TryParseIPAddress]. *)
Inductive label := parse_number | parse_dot | parse_mask.

(** The local variables that live across the jumps.  [result.address] is a
    copy of [address] (converted to [hugeint_t], which keeps the value of an
    [int32_t]) from the first octet on, so it is not kept separately. *)
Record locals := {
  pc : label;
  c : nat;              (* idx_t c *)
  number_count : nat;   (* idx_t number_count *)
  addr : Z;             (* int32_t address *)
  start : nat           (* idx_t start *)
}.

(** [while (c < size && data[c] >= '0' && data[c] <= '9') c++;]
    The loop runs at most [size - c] times; that is the fuel it is given. *)
Fixpoint scan_digits (data : string) (fuel : nat) (c : nat) : nat :=
  match fuel with
  | O => c
  | S fuel' =>
      match String.get c data with
      | Some ch => if is_digit ch then scan_digits data fuel' (S c) else c
      | None => c
      end
  end.

(** [address += number << (8 * number_count);] on [int32_t address]: the
    [uint8_t] is promoted to [int], shifted, and added, each with 32-bit
    two's-complement wrap-around. *)
Definition accumulate (address number : Z) (number_count : nat) : Z :=
  wrap_int32 (address + wrap_int32 (Z.shiftl number (8 * Z.of_nat number_count))).

(** One labelled block, up to its [goto] (left) or [return] (right).
    The cursor never passes the end of the input ([reachable_invariant]), so
    the test [c == size] is [String.get c data = None], and [data[c]] is the
    character of [Some]. *)
Definition step (input : string) (s : locals) : locals + ParseResult :=
  let data := input in
  let size := String.length input in
  match pc s with
  | parse_number =>
      let start := c s in
      let c := scan_digits data (size - c s) (c s) in
      if Nat.eqb start c then
        inr (IPAddressError input "Expected a number")
      else
        match TryCast_uint8 (substring start (c - start) data) with
        | None => inr (IPAddressError input "Expected a number between 0 and 255")
        | Some number =>
            let address := accumulate (addr s) number (number_count s) in
            let number_count := S (number_count s) in
            inl {| pc := if Nat.eqb number_count 4 then parse_mask else parse_dot;
                   c := c; number_count := number_count;
                   addr := address; start := start |}
        end
  | parse_dot =>
      match String.get (c s) data with
      | None => inr (IPAddressError input "Expected a dot")
      | Some ch =>
          if Ascii.eqb ch "." then
            inl {| pc := parse_number; c := S (c s); number_count := number_count s;
                   addr := addr s; start := start s |}
          else inr (IPAddressError input "Expected a dot")
      end
  | parse_mask =>
      match String.get (c s) data with
      | None =>
          (* no mask, default to 32 *)
          inr (ParseOk {| address := addr s; mask := 32 |})
      | Some ch =>
          if Ascii.eqb ch "/" then
            match TryCast_uint8 (substring (start s) (c s - start s) data) with
            | None => inr (IPAddressError input "Expected a number between 0 and 255")
            | Some mask => inr (ParseOk {| address := addr s; mask := mask |})
            end
          else inr (IPAddressError input "Expected a slash")
      end
  end.

(** Follow the jumps for at most [fuel] blocks; [None] is "still running". *)
Fixpoint run (input : string) (fuel : nat) (s : locals) : option ParseResult :=
  match fuel with
  | O => None
  | S fuel' =>
      match step input s with
      | inl s' => run input fuel' s'
      | inr r => Some r
      end
  end.

(** [idx_t c = 0; idx_t number_count = 0; int32_t address = 0;] and entry at
    [parse_number].  [start] is assigned before it is read. *)
Definition initial : locals :=
  {| pc := parse_number; c := 0; number_count := 0; addr := 0; start := 0 |}.

(** Every block that jumps on has moved the cursor forward, so the scanner
    passes through at most [size + 1] blocks. *)
Definition TryParseIPAddress (input : string) : option ParseResult :=
  run input (S (String.length input)) initial.

(** The blocks the scanner can be in, starting from [initial]. *)
Inductive reachable (input : string) : locals -> Prop :=
| reachable_initial : reachable input initial
| reachable_step s s' :
    reachable input s -> step input s = inl s' -> reachable input s'.

(** What holds of the octet count in each block. *)
Definition count_invariant (s : locals) : Prop :=
  match pc s with
  | parse_number => (number_count s < 4)%nat
  | parse_dot => (1 <= number_count s < 4)%nat
  | parse_mask => number_count s = 4%nat
  end.

(** ** The casts *)

(** The source vector as [ToUnifiedFormat] presents it: a selection vector,
    a validity mask and the array of [string_t] cells, all addressed without
    bounds checks (the host supplies [count] addressable rows). *)
Record UnifiedVectorFormat := {
  sel : nat -> nat;         (* vdata.sel->get_index(i) *)
  validity : nat -> bool;   (* vdata.validity.RowIsValid(idx) *)
  cells : nat -> string     (* ((string_t * )vdata.data)[idx] *)
}.

(** The result vector of the cast: the two child arrays of the struct and
    its per-row null flags.  The arrays are raw buffers in the source, with
    room for [count] rows supplied by the host; a write outside the list
    changes nothing here, and the theorems assume the room. *)
Record StructVector := {
  address_data : list Z;    (* FlatVector::GetData<hugeint_t>( *entries[0]) *)
  mask_data : list Z;       (* FlatVector::GetData<int32_t>( *entries[1]) *)
  null_rows : list bool     (* rows marked by FlatVector::SetNull *)
}.

(** Modelled from the spec: the host's [FlatVector::SetNull] is not part of
    this repository; per the spec (Batch Conversion Adapter) it must "mark
    the corresponding output row null in both output columns", with "no side
    effect beyond the null flag". *)
Definition SetNull (i : nat) (v : StructVector) : StructVector :=
  {| address_data := address_data v;
     mask_data := mask_data v;
     null_rows := <[i := true]> (null_rows v) |}.

(** The result vector together with the rows on which [TryParseIPAddress]
    has been called so far, in call order. *)
Record CastState := {
  out : StructVector;
  parsed_rows : list nat
}.

Inductive Exception :=
| InternalException (msg : string).

(** How a cast function ends: it returns its [bool], with the message left
    in [parameters.error_message] if any, or it throws. *)
Inductive CastOutcome (V : Type) :=
| CastReturn (ok : bool) (error_message : option string) (v : V)
| CastThrow (e : Exception).
Arguments CastReturn {V} ok error_message v.
Arguments CastThrow {V} e.

(** [for (idx_t i = 0; i < count; i++)], with [remaining = count - i].
    [None] only if the scanner were still running. *)
Fixpoint cast_rows (vdata : UnifiedVectorFormat) (remaining i : nat) (st : CastState)
  : option (CastOutcome CastState) :=
  match remaining with
  | O => Some (CastReturn true None st)
  | S remaining' =>
      let idx := sel vdata i in
      if negb (validity vdata idx) then
        cast_rows vdata remaining' (S i)
          {| out := SetNull i (out st); parsed_rows := parsed_rows st |}
      else
        let called := parsed_rows st ++ [i] in
        match TryParseIPAddress (cells vdata idx) with
        | None => None
        | Some (ParseError e) =>
            Some (CastReturn false (Some e) {| out := out st; parsed_rows := called |})
        | Some (ParseOk inet) =>
            cast_rows vdata remaining' (S i)
              {| out := {| address_data := <[i := address inet]> (address_data (out st));
                           mask_data := <[i := mask inet]> (mask_data (out st));
                           null_rows := null_rows (out st) |};
                 parsed_rows := called |}
        end
  end.

Definition VarcharToINETCast (source : UnifiedVectorFormat) (result : StructVector)
    (count : nat) : option (CastOutcome CastState) :=
  cast_rows source count 0 {| out := result; parsed_rows := [] |}.

(** [throw InternalException("INET to Varchar cast");] whatever the
    arguments; [result] is the varchar vector that would receive the text. *)
Definition INETToVarcharCast (source : StructVector) (result : list string)
    (count : nat) : CastOutcome (list string) :=
  CastThrow (InternalException "INET to Varchar cast").

(** ** Vocabulary of the statements *)

(** A non-empty run of digits whose value fits an unsigned 8-bit integer. *)
Definition is_octet (s : string) : bool :=
  negb (String.eqb s "") && all_digits s && (digits_value s <=? 255).

(** The text does not go on with a digit. *)
Definition no_digit_ahead (rest : string) : bool :=
  match rest with
  | EmptyString => true
  | String ch _ => negb (is_digit ch)
  end.

(** Octets written with dots in between. *)
Definition dotted (octets : list string) : string := String.concat "." octets.

(** Four octets in the low four bytes, octet 0 lowest. *)
Definition pack_octets (a b c d : Z) : Z := a + 2 ^ 8 * b + 2 ^ 16 * c + 2 ^ 24 * d.

Definition digit_char (d : Z) : ascii := ascii_of_nat (Z.to_nat (48 + d)).

(** The usual decimal notation of an octet value. *)
Definition octet_string (v : Z) : string :=
  if v <? 10 then String (digit_char v) ""
  else if v <? 100 then
    String (digit_char (v / 10)) (String (digit_char (v mod 10)) "")
  else
    String (digit_char (v / 100))
      (String (digit_char (v / 10 mod 10)) (String (digit_char (v mod 10)) "")).

(** Row [k] holds the same in both vectors. *)
Definition same_row (v v' : StructVector) (k : nat) : Prop :=
  address_data v' !! k = address_data v !! k /\
  mask_data v' !! k = mask_data v !! k /\
  null_rows v' !! k = null_rows v !! k.

(** The buffers have room for [count] rows. *)
Definition has_room (v : StructVector) (count : nat) : Prop :=
  (count <= List.length (address_data v))%nat /\
  (count <= List.length (mask_data v))%nat /\
  (count <= List.length (null_rows v))%nat.

(** The batch of the spec's example: ["1.2.3.4"], a null row, ["bad"]. *)
Definition example_batch : UnifiedVectorFormat :=
  {| sel := fun i => i;
     validity := fun idx => negb (Nat.eqb idx 1);
     cells := fun idx => nth idx ["1.2.3.4"; ""; "bad"]%string ""%string |}.

(** A batch of nothing but null rows. *)
Definition null_batch : UnifiedVectorFormat :=
  {| sel := fun i => i; validity := fun _ => false; cells := fun _ => ""%string |}.

(** Three rows of room, with recognisable content. *)
Definition example_result : StructVector :=
  {| address_data := [7; 7; 7]; mask_data := [9; 9; 9];
     null_rows := [false; false; false] |}.

(** The four reasons [TryParseIPAddress] passes to [IPAddressError]. *)
Definition reasons : list string :=
  ["Expected a number"; "Expected a number between 0 and 255";
   "Expected a dot"; "Expected a slash"]%string.

(** The accumulator after a run of octets, the first at position [k]. *)
Fixpoint addr_after (ad : Z) (k : nat) (octets : list string) : Z :=
  match octets with
  | [] => ad
  | o :: os => addr_after (accumulate ad (digits_value o) k) (S k) os
  end.

(** An upper bound on the blocks still to be passed through. *)
Definition blocks_left (s : locals) : nat :=
  match pc s with
  | parse_number => 2 * (4 - number_count s)
  | parse_dot => 2 * (4 - number_count s) + 1
  | parse_mask => 1
  end.

(** The two vectors agree on the rows below [count]. *)
Definition same_rows_below (count : nat) (v v' : UnifiedVectorFormat) : Prop :=
  forall i, (i < count)%nat ->
            sel v i = sel v' i /\
            validity v (sel v i) = validity v' (sel v' i) /\
            cells v (sel v i) = cells v' (sel v' i).

(** The locals after one to four octets with dots between them, read from
    the start of the input. *)
Definition after_octets (octets : list string) : locals :=
  {| pc := if Nat.eqb (List.length octets) 4 then parse_mask else parse_dot;
     c := String.length (dotted octets);
     number_count := List.length octets;
     addr := addr_after 0 0 octets;
     start := String.length (dotted octets) - String.length (List.last octets ""%string) |}.

(** The locals after [n] blocks that all jumped on. *)
Fixpoint blocks (input : string) (n : nat) (s : locals) : option locals :=
  match n with
  | O => Some s
  | S n' =>
      match step input s with
      | inl s' => blocks input n' s'
      | inr _ => None
      end
  end.

(** The example batch with a fourth row behind it and another selection
    vector from row 3 on. *)
Definition example_batch_longer : UnifiedVectorFormat :=
  {| sel := fun i => if Nat.ltb i 3 then i else 0%nat;
     validity := fun idx => negb (Nat.eqb idx 1);
     cells := fun idx => nth idx ["1.2.3.4"; ""; "bad"; "9.9.9.9"]%string ""%string |}.

(** A batch whose first row fails and whose second row is null. *)
Definition failing_then_null_batch : UnifiedVectorFormat :=
  {| sel := fun i => i;
     validity := fun idx => Nat.eqb idx 0;
     cells := fun idx => nth idx ["bad"; ""]%string ""%string |}.

(** * Properties *)

Example parse_plain :
  TryParseIPAddress "1.2.3.4" = Some (ParseOk {| address := 67305985; mask := 32 |}).
Proof. vm_compute. reflexivity. Qed.

Example parse_slash :
  TryParseIPAddress "1.2.3.4/24" = Some (ParseOk {| address := 67305985; mask := 4 |}).
Proof. vm_compute. reflexivity. Qed.

Example parse_high :
  TryParseIPAddress "255.255.255.255" = Some (ParseOk {| address := -1; mask := 32 |}).
Proof. vm_compute. reflexivity. Qed.

Example parse_empty :
  TryParseIPAddress "" = Some (IPAddressError "" "Expected a number").
Proof. vm_compute. reflexivity. Qed.

Example parse_three :
  TryParseIPAddress "1.2.3" = Some (IPAddressError "1.2.3" "Expected a dot").
Proof. vm_compute. reflexivity. Qed.

Example parse_256 :
  TryParseIPAddress "256.1.1.1"
  = Some (IPAddressError "256.1.1.1" "Expected a number between 0 and 255").
Proof. vm_compute. reflexivity. Qed.

(** ** Strings as arrays *)

Section StringFacts.
Local Open Scope string_scope.
Local Open Scope nat_scope.

Lemma length_app (s t : string) :
  String.length (s ++ t) = String.length s + String.length t.
Proof. induction s as [|ch s IH]; simpl; [reflexivity | now rewrite IH]. Qed.

Lemma app_assoc_string (s t u : string) : (s ++ t) ++ u = s ++ t ++ u.
Proof. induction s as [|ch s IH]; simpl; [reflexivity | now rewrite IH]. Qed.

Lemma app_empty_r (s : string) : s ++ "" = s.
Proof. induction s as [|ch s IH]; simpl; [reflexivity | now rewrite IH]. Qed.

Lemma get_past_prefix (pre s : string) (k : nat) :
  String.get (String.length pre + k) (pre ++ s) = String.get k s.
Proof. induction pre as [|ch pre IH]; simpl; [reflexivity | exact IH]. Qed.

Lemma get_at_prefix_end (pre s : string) :
  String.get (String.length pre) (pre ++ s) = String.get 0 s.
Proof. rewrite <- (get_past_prefix pre s 0). f_equal. lia. Qed.

Lemma get_none_iff (s : string) (n : nat) :
  String.get n s = None <-> String.length s <= n.
Proof.
  revert n. induction s as [|ch s IH]; intros n; simpl.
  - split; [lia | reflexivity].
  - destruct n as [|n]; [split; [discriminate | lia] |].
    rewrite IH. lia.
Qed.

Lemma substring_whole (s rest : string) :
  substring 0 (String.length s) (s ++ rest) = s.
Proof. induction s as [|ch s IH]; simpl; [now destruct rest | now rewrite IH]. Qed.

Lemma substring_middle (pre s rest : string) :
  substring (String.length pre) (String.length s) (pre ++ s ++ rest) = s.
Proof. induction pre as [|ch pre IH]; simpl; [apply substring_whole | exact IH]. Qed.
End StringFacts.

(** ** The digit scan *)

Lemma scan_digits_ge data fuel c0 : (c0 <= scan_digits data fuel c0)%nat.
Proof.
  revert c0. induction fuel as [|fuel IH]; intros c0; simpl; [lia|].
  destruct (String.get c0 data) as [ch|]; [|lia].
  destruct (is_digit ch); [|lia]. specialize (IH (S c0)). lia.
Qed.

Lemma scan_digits_le data fuel c0 :
  (scan_digits data fuel c0 <= c0 + fuel)%nat.
Proof.
  revert c0. induction fuel as [|fuel IH]; intros c0; simpl; [lia|].
  destruct (String.get c0 data) as [ch|]; [|lia].
  destruct (is_digit ch); [|lia]. specialize (IH (S c0)). lia.
Qed.

(** Where the scan stops, the loop condition is false: the cursor is at the
    end or on a character that is not a digit. *)
Lemma scan_digits_stop data fuel c0 :
  (String.length data <= c0 + fuel)%nat ->
  match String.get (scan_digits data fuel c0) data with
  | None => True
  | Some ch => is_digit ch = false
  end.
Proof.
  revert c0. induction fuel as [|fuel IH]; intros c0 Hf; simpl.
  - assert (String.get c0 data = None) as -> by (apply get_none_iff; lia). exact I.
  - destruct (String.get c0 data) as [ch|] eqn:Hg; [|now rewrite Hg].
    destruct (is_digit ch) eqn:Hd; [apply IH; lia | now rewrite Hg].
Qed.

(** A run of digits that is followed by no digit is scanned to its end. *)
Lemma scan_digits_run pre ds rest fuel :
  all_digits ds = true -> no_digit_ahead rest = true ->
  (String.length ds <= fuel)%nat ->
  scan_digits (pre ++ ds ++ rest) fuel (String.length pre)
  = (String.length pre + String.length ds)%nat.
Proof.
  revert pre fuel. induction ds as [|ch ds IH]; intros pre fuel Hds Hrest Hf.
  - simpl. rewrite Nat.add_0_r. destruct fuel as [|fuel]; [reflexivity|].
    simpl. rewrite get_at_prefix_end.
    destruct rest as [|r rest]; simpl in *; [reflexivity|].
    destruct (is_digit r); [discriminate | reflexivity].
  - simpl in Hds. apply andb_prop in Hds as [Hch Hds].
    destruct fuel as [|fuel]; [simpl in Hf; lia|].
    simpl scan_digits. rewrite get_at_prefix_end. cbn [String.get String.append]. rewrite Hch.
    assert ((pre ++ String ch (ds ++ rest))%string
            = ((pre ++ String ch "") ++ ds ++ rest)%string) as Hre.
    { rewrite app_assoc_string. reflexivity. }
    assert (S (String.length pre) = String.length (pre ++ String ch "")) as Hlen.
    { rewrite length_app. simpl. lia. }
    rewrite Hre, Hlen, IH; try assumption; [|simpl in Hf; lia].
    rewrite length_app. simpl. lia.
Qed.

(** ** The numeric conversion on digit runs *)

Lemma is_octet_inv s :
  is_octet s = true ->
  s <> EmptyString /\ all_digits s = true /\ digits_value s <= 255.
Proof.
  unfold is_octet. intros H.
  apply andb_prop in H as [H H3]. apply andb_prop in H as [H1 H2].
  repeat split; [| assumption | lia].
  intros ->. discriminate.
Qed.

Lemma TryCast_uint8_octet s :
  is_octet s = true -> TryCast_uint8 s = Some (digits_value s).
Proof.
  intros H. apply is_octet_inv in H as (Hne & Hd & Hv).
  unfold TryCast_uint8. destruct s as [|ch s]; [congruence|].
  rewrite Hd. destruct (Z.leb_spec (digits_value (String ch s)) 255); [reflexivity | lia].
Qed.

Lemma digit_value_range ch : is_digit ch = true -> 0 <= digit_value ch <= 9.
Proof.
  unfold is_digit, digit_value. intros H. apply andb_prop in H as [H1 H2]. lia.
Qed.

Lemma digits_value_from_ge acc s :
  all_digits s = true -> 0 <= acc -> acc <= digits_value_from acc s.
Proof.
  revert acc. induction s as [|ch s IH]; intros acc Hd Hacc; simpl; [lia|].
  simpl in Hd. apply andb_prop in Hd as [Hch Hd].
  apply digit_value_range in Hch.
  specialize (IH (10 * acc + digit_value ch) Hd). lia.
Qed.

Lemma is_octet_range s : is_octet s = true -> 0 <= digits_value s <= 255.
Proof.
  intros H. apply is_octet_inv in H as (_ & Hd & Hv). split; [|assumption].
  apply (digits_value_from_ge 0 s Hd). lia.
Qed.

Lemma is_octet_length s : is_octet s = true -> (1 <= String.length s)%nat.
Proof.
  intros H. apply is_octet_inv in H as (Hne & _ & _).
  destruct s; [congruence | simpl; lia].
Qed.

(** ** Following the jumps *)

Lemma run_more input fuel fuel' s r :
  run input fuel s = Some r -> (fuel <= fuel')%nat -> run input fuel' s = Some r.
Proof.
  revert fuel' s. induction fuel as [|fuel IH]; intros fuel' s Hr Hle; [discriminate|].
  destruct fuel' as [|fuel']; [lia|]. simpl in *.
  destruct (step input s) as [s'|r']; [apply IH; [assumption | lia] | assumption].
Qed.

Section OctetSteps.
Local Open Scope string_scope.

(** The block [parse_number] in front of an octet. *)
Lemma step_number_octet input pre ds rest k ad st :
  input = pre ++ ds ++ rest ->
  is_octet ds = true -> no_digit_ahead rest = true ->
  step input {| pc := parse_number; c := String.length pre; number_count := k;
                addr := ad; start := st |}
  = inl {| pc := if Nat.eqb (S k) 4 then parse_mask else parse_dot;
           c := String.length (pre ++ ds); number_count := S k;
           addr := accumulate ad (digits_value ds) k;
           start := String.length pre |}.
Proof.
  intros -> Hoct Hrest.
  pose proof (is_octet_length _ Hoct) as Hlen.
  pose proof (TryCast_uint8_octet _ Hoct) as Hcast.
  apply is_octet_inv in Hoct as (_ & Hds & _).
  unfold step. cbn [pc c number_count addr start].
  rewrite scan_digits_run by (rewrite ?length_app; solve [assumption | lia]).
  destruct (Nat.eqb_spec (String.length pre) (String.length pre + String.length ds));
    [lia|].
  replace (String.length pre + String.length ds - String.length pre)%nat
    with (String.length ds) by lia.
  rewrite substring_middle, Hcast, length_app. reflexivity.
Qed.

(** The block [parse_dot] in front of a dot. *)
Lemma step_dot_present input pre rest k ad st :
  input = pre ++ "." ++ rest ->
  step input {| pc := parse_dot; c := String.length pre; number_count := k;
                addr := ad; start := st |}
  = inl {| pc := parse_number; c := String.length (pre ++ "."); number_count := k;
           addr := ad; start := st |}.
Proof.
  intros ->. unfold step. cbn [pc c number_count addr start].
  rewrite get_at_prefix_end. cbn. rewrite length_app. cbn.
  replace (String.length pre + 1)%nat with (S (String.length pre)) by lia.
  reflexivity.
Qed.

(** A dot and the octet after it. *)
Lemma run_next_octet input pre ds rest k ad st n :
  input = pre ++ "." ++ ds ++ rest ->
  is_octet ds = true -> no_digit_ahead rest = true ->
  run input (2 + n) {| pc := parse_dot; c := String.length pre; number_count := k;
                       addr := ad; start := st |}
  = run input n {| pc := if Nat.eqb (S k) 4 then parse_mask else parse_dot;
                   c := String.length ((pre ++ ".") ++ ds); number_count := S k;
                   addr := accumulate ad (digits_value ds) k;
                   start := String.length (pre ++ ".") |}.
Proof.
  intros Hin Hoct Hrest. cbn [Nat.add run].
  rewrite (step_dot_present input pre (ds ++ rest)) by exact Hin.
  rewrite (step_number_octet input (pre ++ ".") ds rest); try assumption.
  - reflexivity.
  - now rewrite Hin, app_assoc_string.
Qed.

Lemma run_octet_1 a rest n :
  is_octet a = true -> no_digit_ahead rest = true ->
  run (a ++ rest) (1 + n) initial
  = run (a ++ rest) n
      {| pc := parse_dot; c := String.length a; number_count := 1;
         addr := accumulate 0 (digits_value a) 0; start := 0 |}.
Proof.
  intros Ha Hrest. cbn [Nat.add run]. unfold initial.
  now rewrite (step_number_octet (a ++ rest) "" a rest).
Qed.

Lemma run_octet_2 a b rest n :
  is_octet a = true -> is_octet b = true -> no_digit_ahead rest = true ->
  run (a ++ "." ++ b ++ rest) (3 + n) initial
  = run (a ++ "." ++ b ++ rest) n
      {| pc := parse_dot; c := String.length ((a ++ ".") ++ b); number_count := 2;
         addr := accumulate (accumulate 0 (digits_value a) 0) (digits_value b) 1;
         start := String.length (a ++ ".") |}.
Proof.
  intros Ha Hb Hrest.
  change (3 + n)%nat with (1 + (2 + n))%nat.
  rewrite run_octet_1 by (assumption || reflexivity).
  now rewrite (run_next_octet _ a b rest).
Qed.

Lemma run_octet_3 a b c' rest n :
  is_octet a = true -> is_octet b = true -> is_octet c' = true ->
  no_digit_ahead rest = true ->
  run (a ++ "." ++ b ++ "." ++ c' ++ rest) (5 + n) initial
  = run (a ++ "." ++ b ++ "." ++ c' ++ rest) n
      {| pc := parse_dot; c := String.length ((((a ++ ".") ++ b) ++ ".") ++ c');
         number_count := 3;
         addr := accumulate (accumulate (accumulate 0 (digits_value a) 0)
                               (digits_value b) 1) (digits_value c') 2;
         start := String.length (((a ++ ".") ++ b) ++ ".") |}.
Proof.
  intros Ha Hb Hc Hrest.
  change (5 + n)%nat with (3 + (2 + n))%nat.
  rewrite run_octet_2 by (assumption || reflexivity).
  rewrite (run_next_octet _ ((a ++ ".") ++ b) c' rest); try assumption; [reflexivity|].
  now rewrite !app_assoc_string.
Qed.

Lemma run_octet_4 a b c' d rest n :
  is_octet a = true -> is_octet b = true -> is_octet c' = true ->
  is_octet d = true -> no_digit_ahead rest = true ->
  run (a ++ "." ++ b ++ "." ++ c' ++ "." ++ d ++ rest) (7 + n) initial
  = run (a ++ "." ++ b ++ "." ++ c' ++ "." ++ d ++ rest) n
      {| pc := parse_mask;
         c := String.length ((((((a ++ ".") ++ b) ++ ".") ++ c') ++ ".") ++ d);
         number_count := 4;
         addr := accumulate (accumulate (accumulate (accumulate 0 (digits_value a) 0)
                               (digits_value b) 1) (digits_value c') 2)
                   (digits_value d) 3;
         start := String.length (((((a ++ ".") ++ b) ++ ".") ++ c') ++ ".") |}.
Proof.
  intros Ha Hb Hc Hd Hrest.
  change (7 + n)%nat with (5 + (2 + n))%nat.
  rewrite run_octet_3 by (assumption || reflexivity).
  rewrite (run_next_octet _ ((((a ++ ".") ++ b) ++ ".") ++ c') d rest);
    try assumption; [reflexivity|].
  now rewrite !app_assoc_string.
Qed.
End OctetSteps.

(** ** Packing the octets *)

Lemma shiftl_octet v (k : nat) : Z.shiftl v (8 * Z.of_nat k) = v * 2 ^ (8 * Z.of_nat k).
Proof. apply Z.shiftl_mul_pow2. lia. Qed.

Lemma byte_of_div_mod z k : 0 <= k -> byte_of z k = (z / 2 ^ (8 * k)) mod 2 ^ 8.
Proof.
  intros Hk. unfold byte_of. change 255 with (Z.ones 8).
  rewrite Z.land_ones by lia. rewrite Z.shiftr_div_pow2 by lia. reflexivity.
Qed.

(** After four octets the accumulator holds their little-endian packing,
    read as a 32-bit signed integer. *)
Lemma accumulate_octets a b c' d :
  0 <= a <= 255 -> 0 <= b <= 255 -> 0 <= c' <= 255 -> 0 <= d <= 255 ->
  accumulate (accumulate (accumulate (accumulate 0 a 0) b 1) c' 2) d 3
  = wrap_int32 (pack_octets a b c' d).
Proof.
  intros Ha Hb Hc Hd. unfold accumulate, pack_octets.
  rewrite !shiftl_octet. cbn [Z.of_nat Pos.of_succ_nat Pos.succ Z.mul Pos.mul].
  unfold wrap_int32.
  change (2 ^ 0) with 1. change (2 ^ 8) with 256. change (2 ^ 16) with 65536.
  change (2 ^ 24) with 16777216. change (2 ^ 31) with 2147483648.
  change (2 ^ 32) with 4294967296.
  Z.div_mod_to_equations. lia.
Qed.

Lemma wrap_pack_bytes a b c' d :
  0 <= a <= 255 -> 0 <= b <= 255 -> 0 <= c' <= 255 -> 0 <= d <= 255 ->
  byte_of (wrap_int32 (pack_octets a b c' d)) 0 = a /\
  byte_of (wrap_int32 (pack_octets a b c' d)) 1 = b /\
  byte_of (wrap_int32 (pack_octets a b c' d)) 2 = c' /\
  byte_of (wrap_int32 (pack_octets a b c' d)) 3 = d.
Proof.
  intros Ha Hb Hc Hd. rewrite !byte_of_div_mod by lia.
  unfold wrap_int32, pack_octets.
  change (2 ^ (8 * 0)) with 1. change (2 ^ (8 * 1)) with 256.
  change (2 ^ (8 * 2)) with 65536. change (2 ^ (8 * 3)) with 16777216.
  change (2 ^ 8) with 256. change (2 ^ 16) with 65536.
  change (2 ^ 24) with 16777216. change (2 ^ 31) with 2147483648.
  change (2 ^ 32) with 4294967296.
  repeat split; Z.div_mod_to_equations; lia.
Qed.

(** The sign of the packed value is the top bit of the fourth octet. *)
Lemma wrap_pack_sign a b c' d :
  0 <= a <= 255 -> 0 <= b <= 255 -> 0 <= c' <= 255 -> 0 <= d <= 255 ->
  wrap_int32 (pack_octets a b c' d)
  = if d <? 128 then pack_octets a b c' d else pack_octets a b c' d - 2 ^ 32.
Proof.
  intros Ha Hb Hc Hd. unfold wrap_int32, pack_octets.
  change (2 ^ 8) with 256. change (2 ^ 16) with 65536.
  change (2 ^ 24) with 16777216. change (2 ^ 31) with 2147483648.
  change (2 ^ 32) with 4294967296.
  destruct (Z.ltb_spec d 128); Z.div_mod_to_equations; lia.
Qed.

(** ** The last block *)

Section MaskBlock.
Local Open Scope string_scope.

(** [parse_mask] at the end of the input: the default mask. *)
Lemma step_mask_end pre k ad st :
  step pre {| pc := parse_mask; c := String.length pre; number_count := k;
              addr := ad; start := st |}
  = inr (ParseOk {| address := ad; mask := 32 |}).
Proof.
  unfold step. cbn [pc c number_count addr start].
  assert (String.get (String.length pre) pre = None) as ->
    by (apply get_none_iff; lia).
  reflexivity.
Qed.

(** [parse_mask] on a slash: the conversion is applied to the text between
    [start] and [c], which is still the fourth octet. *)
Lemma step_mask_slash input pre d tail k ad :
  input = pre ++ d ++ "/" ++ tail -> is_octet d = true ->
  step input {| pc := parse_mask; c := String.length (pre ++ d); number_count := k;
                addr := ad; start := String.length pre |}
  = inr (ParseOk {| address := ad; mask := digits_value d |}).
Proof.
  intros -> Hd. unfold step. cbn [pc c number_count addr start].
  rewrite <- (app_assoc_string pre d), get_at_prefix_end. cbn.
  rewrite (app_assoc_string pre d), length_app.
  replace (String.length pre + String.length d - String.length pre)%nat
    with (String.length d) by lia.
  change (String "/" tail) with ("/" ++ tail).
  now rewrite substring_middle, TryCast_uint8_octet.
Qed.

(** [parse_dot] at the end of the input. *)
Lemma step_dot_end pre k ad st :
  step pre {| pc := parse_dot; c := String.length pre; number_count := k;
              addr := ad; start := st |}
  = inr (IPAddressError pre "Expected a dot").
Proof.
  unfold step. cbn [pc c number_count addr start].
  assert (String.get (String.length pre) pre = None) as ->
    by (apply get_none_iff; lia).
  reflexivity.
Qed.

Lemma quad_length a b c' d rest :
  is_octet a = true -> is_octet b = true -> is_octet c' = true ->
  is_octet d = true ->
  (7 <= String.length (a ++ "." ++ b ++ "." ++ c' ++ "." ++ d ++ rest))%nat.
Proof.
  intros Ha%is_octet_length Hb%is_octet_length Hc%is_octet_length
         Hd%is_octet_length.
  rewrite !length_app. cbn [String.length]. lia.
Qed.

(** Four octets and nothing more. *)
Lemma parse_quad a b c' d :
  is_octet a = true -> is_octet b = true -> is_octet c' = true ->
  is_octet d = true ->
  TryParseIPAddress (a ++ "." ++ b ++ "." ++ c' ++ "." ++ d)
  = Some (ParseOk {| address := wrap_int32 (pack_octets (digits_value a) (digits_value b)
                                              (digits_value c') (digits_value d));
                     mask := 32 |}).
Proof.
  intros Ha Hb Hc Hd. unfold TryParseIPAddress.
  apply (run_more _ 8).
  - rewrite <- (app_empty_r d) at 1 2.
    change 8%nat with (7 + 1)%nat.
    rewrite run_octet_4 by (assumption || reflexivity).
    cbn [run]. rewrite !app_empty_r.
    replace (a ++ "." ++ b ++ "." ++ c' ++ "." ++ d)
      with ((((((a ++ ".") ++ b) ++ ".") ++ c') ++ ".") ++ d)
      by now rewrite !app_assoc_string.
    rewrite step_mask_end.
    now rewrite accumulate_octets by now apply is_octet_range.
  - pose proof (quad_length a b c' d "" Ha Hb Hc Hd) as Hlen.
    rewrite app_empty_r in Hlen. lia.
Qed.

(** Four octets, a slash, and any text. *)
Lemma parse_quad_slash a b c' d tail :
  is_octet a = true -> is_octet b = true -> is_octet c' = true ->
  is_octet d = true ->
  TryParseIPAddress (a ++ "." ++ b ++ "." ++ c' ++ "." ++ d ++ "/" ++ tail)
  = Some (ParseOk {| address := wrap_int32 (pack_octets (digits_value a) (digits_value b)
                                              (digits_value c') (digits_value d));
                     mask := digits_value d |}).
Proof.
  intros Ha Hb Hc Hd. unfold TryParseIPAddress.
  apply (run_more _ 8).
  - change 8%nat with (7 + 1)%nat.
    rewrite run_octet_4 by (assumption || reflexivity).
    cbn [run].
    rewrite (step_mask_slash _ (((((a ++ ".") ++ b) ++ ".") ++ c') ++ ".") d tail);
      [| now rewrite !app_assoc_string | assumption].
    now rewrite accumulate_octets by now apply is_octet_range.
  - pose proof (quad_length a b c' d ("/" ++ tail) Ha Hb Hc Hd). lia.
Qed.
End MaskBlock.

(** ** Decimal notation of octet values *)

Lemma octet_string_table :
  forallb (fun n => is_octet (octet_string (Z.of_nat n))
                    && (digits_value (octet_string (Z.of_nat n)) =? Z.of_nat n))
          (seq 0 256) = true.
Proof. vm_compute. reflexivity. Qed.

Lemma octet_string_octet v :
  0 <= v <= 255 ->
  is_octet (octet_string v) = true /\ digits_value (octet_string v) = v.
Proof.
  intros Hv. pose proof octet_string_table as Htab.
  rewrite forallb_forall in Htab.
  assert (In (Z.to_nat v) (seq 0 256)) as Hin by (apply in_seq; lia).
  apply Htab in Hin. rewrite Z2Nat.id in Hin by lia.
  apply andb_prop in Hin as [H1 H2]. split; [assumption | lia].
Qed.

(** ** Progress of the scanner *)

(** A block that jumps on has moved the cursor forward, within the input. *)
Lemma step_progress input s s' :
  (c s <= String.length input)%nat -> step input s = inl s' ->
  (c s < c s' <= String.length input)%nat.
Proof.
  intros Hc. unfold step. destruct (pc s).
  - pose proof (scan_digits_ge input (String.length input - c s) (c s)) as Hge.
    pose proof (scan_digits_le input (String.length input - c s) (c s)) as Hle.
    destruct (Nat.eqb_spec (c s) (scan_digits input (String.length input - c s) (c s)));
      [discriminate|].
    destruct (TryCast_uint8 _); [|discriminate].
    intros [= <-]. cbn [c]. lia.
  - destruct (String.get (c s) input) as [ch|] eqn:Hg; [|discriminate].
    destruct (Ascii.eqb ch "."); [|discriminate].
    intros [= <-]. cbn [c].
    assert (~ (String.length input <= c s)%nat) by (rewrite <- get_none_iff; congruence).
    lia.
  - destruct (String.get (c s) input) as [ch|]; [|discriminate].
    destruct (Ascii.eqb ch "/"); [|discriminate].
    destruct (TryCast_uint8 _); discriminate.
Qed.

(** [parse_mask] never jumps. *)
Lemma step_mask_returns input s :
  pc s = parse_mask -> exists r, step input s = inr r.
Proof.
  intros Hpc. unfold step. rewrite Hpc.
  destruct (String.get (c s) input) as [ch|]; [|eauto].
  destruct (Ascii.eqb ch "/"); [|eauto].
  destruct (TryCast_uint8 _); eauto.
Qed.

(** Fuel beyond the bytes left is never used up. *)
Lemma run_returns input fuel s :
  (c s <= String.length input)%nat -> (String.length input - c s < fuel)%nat ->
  exists r, run input fuel s = Some r.
Proof.
  revert s. induction fuel as [|fuel IH]; intros s Hc Hf; [lia|].
  simpl. destruct (step input s) as [s'|r] eqn:Hstep; [|eauto].
  apply step_progress in Hstep; [|assumption].
  apply IH; lia.
Qed.

Lemma reachable_invariant input s :
  reachable input s -> (c s <= String.length input)%nat /\ count_invariant s.
Proof.
  induction 1 as [|s s' Hr [IHc IHn] Hstep].
  - split; [cbn; lia | cbv; lia].
  - split; [apply step_progress in Hstep; [lia | assumption]|].
    revert Hstep IHn. unfold step, count_invariant.
    destruct (pc s).
    + destruct (Nat.eqb _ _); [discriminate|].
      destruct (TryCast_uint8 _); [|discriminate].
      intros [= <-] Hn. cbn [pc number_count].
      destruct (Nat.eqb_spec (number_count s) 3); lia.
    + destruct (String.get _ _) as [ch|]; [|discriminate].
      destruct (Ascii.eqb ch "."); [|discriminate].
      intros [= <-] Hn. cbn [pc number_count]. lia.
    + destruct (String.get _ _) as [ch|]; [|discriminate].
      destruct (Ascii.eqb ch "/"); [|discriminate].
      destruct (TryCast_uint8 _); discriminate.
Qed.

(** ** Inputs that stop early *)

Lemma scan_digits_no_digit input fuel :
  no_digit_ahead input = true -> scan_digits input fuel 0 = 0%nat.
Proof.
  intros H. destruct fuel as [|fuel]; [reflexivity|].
  destruct input as [|ch input]; [reflexivity|].
  cbn in *. now destruct (is_digit ch).
Qed.

Section EarlyEnd.
Local Open Scope string_scope.

Lemma parse_one_octet a :
  is_octet a = true ->
  TryParseIPAddress a = Some (IPAddressError a "Expected a dot").
Proof.
  intros Ha. unfold TryParseIPAddress. apply (run_more _ 2).
  - assert (a = a ++ "") as Hin by now rewrite app_empty_r.
    rewrite Hin. change 2%nat with (1 + 1)%nat.
    rewrite run_octet_1 by (assumption || reflexivity).
    cbn [run]. rewrite <- Hin. now rewrite step_dot_end.
  - pose proof (is_octet_length a Ha). lia.
Qed.

Lemma parse_two_octets a b :
  is_octet a = true -> is_octet b = true ->
  TryParseIPAddress (a ++ "." ++ b)
  = Some (IPAddressError (a ++ "." ++ b) "Expected a dot").
Proof.
  intros Ha Hb. unfold TryParseIPAddress. apply (run_more _ 4).
  - assert (a ++ "." ++ b = a ++ "." ++ b ++ "") as Hin by now rewrite app_empty_r.
    rewrite Hin. change 4%nat with (3 + 1)%nat.
    rewrite run_octet_2 by (assumption || reflexivity).
    cbn [run].
    replace (a ++ "." ++ b ++ "") with ((a ++ ".") ++ b)
      by now rewrite app_empty_r, app_assoc_string.
    now rewrite step_dot_end.
  - pose proof (is_octet_length a Ha). pose proof (is_octet_length b Hb).
    rewrite !length_app. cbn [String.length]. lia.
Qed.

Lemma parse_three_octets a b c' :
  is_octet a = true -> is_octet b = true -> is_octet c' = true ->
  TryParseIPAddress (a ++ "." ++ b ++ "." ++ c')
  = Some (IPAddressError (a ++ "." ++ b ++ "." ++ c') "Expected a dot").
Proof.
  intros Ha Hb Hc. unfold TryParseIPAddress. apply (run_more _ 6).
  - assert (a ++ "." ++ b ++ "." ++ c' = a ++ "." ++ b ++ "." ++ c' ++ "") as Hin
      by now rewrite app_empty_r.
    rewrite Hin. change 6%nat with (5 + 1)%nat.
    rewrite run_octet_3 by (assumption || reflexivity).
    cbn [run].
    replace (a ++ "." ++ b ++ "." ++ c' ++ "") with ((((a ++ ".") ++ b) ++ ".") ++ c')
      by now rewrite app_empty_r, !app_assoc_string.
    now rewrite step_dot_end.
  - pose proof (is_octet_length a Ha). pose proof (is_octet_length b Hb).
    pose proof (is_octet_length c' Hc).
    rewrite !length_app. cbn [String.length]. lia.
Qed.
End EarlyEnd.

(** ** The scanner: results *)

Section ScannerResults.
Local Open Scope string_scope.

(** C1, on the input ["1.2.3.4/24"]: the parse succeeds, and the mask it
    stores is 4, the value of the fourth octet, where the text after the
    slash says 24. *)
Theorem mask_of_slash_24_is_fourth_octet :
  TryParseIPAddress "1.2.3.4/24"
  = Some (ParseOk {| address := pack_octets 1 2 3 4; mask := 4 |}).
Proof. vm_compute. reflexivity. Qed.

(** C2, on the input ["255.255.255.255"]: the parse succeeds and the
    address it stores is -1, the sign extension of the 32-bit pattern, where
    the zero-extended packing is 4294967295. *)
Theorem address_of_all_ones_is_negative :
  TryParseIPAddress "255.255.255.255"
  = Some (ParseOk {| address := -1; mask := 32 |})
  /\ pack_octets 255 255 255 255 = 4294967295.
Proof. split; vm_compute; reflexivity. Qed.

(** The address of a dotted quad in general: the packing of its octets when
    the fourth is below 128, and that minus [2 ^ 32] otherwise. *)
Lemma parse_quad_address a b c' d :
  is_octet a = true -> is_octet b = true -> is_octet c' = true ->
  is_octet d = true ->
  exists r,
    TryParseIPAddress (a ++ "." ++ b ++ "." ++ c' ++ "." ++ d) = Some (ParseOk r) /\
    address r
    = let p := pack_octets (digits_value a) (digits_value b)
                 (digits_value c') (digits_value d) in
      if (digits_value d <? 128)%Z then p else p - 2 ^ 32.
Proof.
  intros Ha Hb Hc Hd. eexists. split; [now apply parse_quad|].
  cbn [address]. now apply wrap_pack_sign; apply is_octet_range.
Qed.

(** C4: for all octet values [a], [b], [c'], [d] in [0,255], the text
    [a.b.c'.d] in decimal notation parses, the mask is 32, and bytes 0 to 3
    of the address are [a], [b], [c'] and [d] again. *)
Theorem dotted_quad_roundtrip a b c' d :
  0 <= a <= 255 -> 0 <= b <= 255 -> 0 <= c' <= 255 -> 0 <= d <= 255 ->
  exists r,
    TryParseIPAddress (octet_string a ++ "." ++ octet_string b ++ "."
                       ++ octet_string c' ++ "." ++ octet_string d)
    = Some (ParseOk r) /\
    mask r = 32 /\
    byte_of (address r) 0 = a /\ byte_of (address r) 1 = b /\
    byte_of (address r) 2 = c' /\ byte_of (address r) 3 = d.
Proof.
  intros Ha Hb Hc Hd.
  destruct (octet_string_octet a Ha) as [Oa Va].
  destruct (octet_string_octet b Hb) as [Ob Vb].
  destruct (octet_string_octet c' Hc) as [Oc Vc].
  destruct (octet_string_octet d Hd) as [Od Vd].
  eexists. split; [now apply parse_quad|].
  cbn [mask address]. rewrite Va, Vb, Vc, Vd.
  split; [reflexivity | now apply wrap_pack_bytes].
Qed.

Lemma dotted_quad_roundtrip_witness :
  exists r,
    TryParseIPAddress "192.168.1.255" = Some (ParseOk r) /\
    mask r = 32 /\
    byte_of (address r) 0 = 192 /\ byte_of (address r) 1 = 168 /\
    byte_of (address r) 2 = 1 /\ byte_of (address r) 3 = 255.
Proof. apply (dotted_quad_roundtrip 192 168 1 255); lia. Defined.

(** C7: the empty string, and every input whose first character is not an
    ASCII digit, fails with exactly the message
    [Failed to convert string "<input>" to inet: Expected a number]. *)
Theorem no_leading_digit_expected_number input :
  no_digit_ahead input = true ->
  TryParseIPAddress input
  = Some (ParseError ("Failed to convert string " ++ String dquote ""
                      ++ input ++ String dquote ""
                      ++ " to inet: Expected a number")).
Proof.
  intros H. unfold TryParseIPAddress. cbn [run]. unfold step, initial.
  cbn [pc c]. now rewrite scan_digits_no_digit.
Qed.

Lemma no_leading_digit_expected_number_witness :
  no_digit_ahead "" = true /\ no_digit_ahead "bad" = true /\
  TryParseIPAddress ""
  = Some (ParseError ("Failed to convert string " ++ String dquote ""
                      ++ String dquote "" ++ " to inet: Expected a number")) /\
  TryParseIPAddress "bad"
  = Some (ParseError ("Failed to convert string " ++ String dquote ""
                      ++ "bad" ++ String dquote ""
                      ++ " to inet: Expected a number")).
Proof.
  split; [reflexivity|]. split; [reflexivity|]. split.
  - apply (no_leading_digit_expected_number ""). reflexivity.
  - apply (no_leading_digit_expected_number "bad"). reflexivity.
Defined.

(** C8: an input that ends right after one, two or three octets, such as
    ["1.2.3"], fails with [Expected a dot].  Whenever the end of the input
    is reached in [parse_dot], fewer than four octets have been parsed and
    the block returns the missing-dot error, not the missing-number one. *)
Theorem end_after_fewer_octets_expected_dot :
  (forall (octets : list string),
      (1 <= List.length octets <= 3)%nat ->
      forallb is_octet octets = true ->
      TryParseIPAddress (dotted octets)
      = Some (ParseError ("Failed to convert string " ++ String dquote ""
                          ++ dotted octets ++ String dquote ""
                          ++ " to inet: Expected a dot"))) /\
  (forall input s,
      reachable input s -> pc s = parse_dot -> c s = String.length input ->
      (number_count s < 4)%nat /\
      step input s
      = inr (ParseError ("Failed to convert string " ++ String dquote ""
                         ++ input ++ String dquote ""
                         ++ " to inet: Expected a dot"))).
Proof.
  split.
  - intros octets Hlen Hoct.
    destruct octets as [|a [|b [|c' [|e l]]]]; cbn in Hlen; try lia;
      cbn [forallb] in Hoct; cbn [dotted String.concat].
    + apply andb_prop in Hoct as [Ha _]. now rewrite parse_one_octet.
    + apply andb_prop in Hoct as [Ha Hoct]. apply andb_prop in Hoct as [Hb _].
      now rewrite parse_two_octets.
    + apply andb_prop in Hoct as [Ha Hoct]. apply andb_prop in Hoct as [Hb Hoct].
      apply andb_prop in Hoct as [Hc _].
      now rewrite parse_three_octets.
  - intros input s [_ Hn]%reachable_invariant Hpc Hc.
    unfold count_invariant in Hn. rewrite Hpc in Hn. split; [lia|].
    unfold step. rewrite Hpc, Hc.
    assert (String.get (String.length input) input = None) as ->
      by (apply get_none_iff; lia).
    reflexivity.
Qed.

Lemma end_after_fewer_octets_expected_dot_witness :
  TryParseIPAddress "1.2.3"
  = Some (ParseError ("Failed to convert string " ++ String dquote ""
                      ++ "1.2.3" ++ String dquote ""
                      ++ " to inet: Expected a dot")).
Proof.
  apply (proj1 end_after_fewer_octets_expected_dot ["1"; "2"; "3"]);
    [cbn; lia | reflexivity].
Defined.

(** C9: four valid octets with dots between them, then a slash, then any
    bytes at all: the parse succeeds, with a result that does not depend on
    what follows the slash; the mask is the value of the fourth octet. *)
Theorem slash_tail_is_never_read a b c' d tail :
  is_octet a = true -> is_octet b = true -> is_octet c' = true ->
  is_octet d = true ->
  TryParseIPAddress (a ++ "." ++ b ++ "." ++ c' ++ "." ++ d ++ "/" ++ tail)
  = Some (ParseOk {| address := wrap_int32 (pack_octets (digits_value a) (digits_value b)
                                              (digits_value c') (digits_value d));
                     mask := digits_value d |}).
Proof. apply parse_quad_slash. Qed.

Lemma slash_tail_is_never_read_witness :
  TryParseIPAddress "1.2.3.4/abc"
  = Some (ParseOk {| address := pack_octets 1 2 3 4; mask := 4 |}) /\
  TryParseIPAddress "1.2.3.4/"
  = Some (ParseOk {| address := pack_octets 1 2 3 4; mask := 4 |}).
Proof.
  split.
  - apply (slash_tail_is_never_read "1" "2" "3" "4" "abc"); reflexivity.
  - apply (slash_tail_is_never_read "1" "2" "3" "4" ""); reflexivity.
Defined.

(** C10: the scanner returns on every input.  The digit loop stops with its
    condition false, not earlier; every block that jumps on has moved the
    cursor forward by at least one byte and not past the end (the octet scan
    on success, and the dot); [parse_mask] always returns; the octet count
    never exceeds four. *)
Theorem scanner_terminates input :
  (exists r, TryParseIPAddress input = Some r) /\
  (forall s, reachable input s ->
             match String.get (scan_digits input (String.length input - c s) (c s)) input with
             | None => True
             | Some ch => is_digit ch = false
             end) /\
  (forall s s', reachable input s -> step input s = inl s' ->
                (c s < c s' <= String.length input)%nat) /\
  (forall s, reachable input s -> pc s = parse_mask ->
             exists r, step input s = inr r) /\
  (forall s, reachable input s -> (number_count s <= 4)%nat).
Proof.
  split; [|split; [|split; [|split]]].
  - apply run_returns; cbn; lia.
  - intros s [Hc _]%reachable_invariant. apply scan_digits_stop. lia.
  - intros s s' [Hc _]%reachable_invariant Hstep.
    now apply step_progress.
  - intros s _ Hpc. now apply step_mask_returns.
  - intros s [_ Hn]%reachable_invariant. unfold count_invariant in Hn.
    destruct (pc s); lia.
Qed.
End ScannerResults.

(** ** The batch loop *)

(** The loop is reasoned about with the scanner as a black box. *)
Arguments TryParseIPAddress : simpl never.

Lemma same_row_refl v k : same_row v v k.
Proof. now repeat split. Qed.

Lemma same_row_trans v1 v2 v3 k :
  same_row v1 v2 k -> same_row v2 v3 k -> same_row v1 v3 k.
Proof. unfold same_row. intros (?&?&?) (?&?&?). repeat split; congruence. Qed.

Lemma same_row_SetNull v i k : i <> k -> same_row v (SetNull i v) k.
Proof.
  intros Hne. unfold same_row, SetNull. cbn.
  repeat split. now apply list_lookup_insert_ne.
Qed.

Lemma same_row_write v i k a m :
  i <> k ->
  same_row v {| address_data := <[i := a]> (address_data v);
                mask_data := <[i := m]> (mask_data v);
                null_rows := null_rows v |} k.
Proof.
  intros Hne. unfold same_row. cbn.
  repeat split; now apply list_lookup_insert_ne.
Qed.

(** The loop over rows [i .. i + remaining) leaves every other row alone. *)
Lemma cast_rows_frame vdata remaining i st ok e st' k :
  cast_rows vdata remaining i st = Some (CastReturn ok e st') ->
  (k < i \/ i + remaining <= k)%nat ->
  same_row (out st) (out st') k.
Proof.
  revert i st. induction remaining as [|r IH]; intros i st Hrun Hk.
  - cbn in Hrun. injection Hrun as <- <- <-. apply same_row_refl.
  - cbn in Hrun. destruct (validity vdata (sel vdata i)); cbn in Hrun.
    + destruct (TryParseIPAddress _) as [[inet|msg]|]; [| |discriminate].
      * apply IH in Hrun; [|lia]. cbn in Hrun.
        eapply same_row_trans; [|exact Hrun]. apply same_row_write. lia.
      * injection Hrun as <- <- <-. apply same_row_refl.
    + apply IH in Hrun; [|lia]. cbn in Hrun.
      eapply same_row_trans; [|exact Hrun]. apply same_row_SetNull. lia.
Qed.

(** The buffers keep their lengths. *)
Lemma cast_rows_room vdata remaining i st ok e st' n :
  cast_rows vdata remaining i st = Some (CastReturn ok e st') ->
  has_room (out st) n -> has_room (out st') n.
Proof.
  revert i st. induction remaining as [|r IH]; intros i st Hrun Hroom.
  - cbn in Hrun. now injection Hrun as <- <- <-.
  - cbn in Hrun. destruct (validity vdata (sel vdata i)); cbn in Hrun.
    + destruct (TryParseIPAddress _) as [[inet|msg]|]; [| |discriminate].
      * apply IH in Hrun; [assumption|].
        unfold has_room in *. cbn. now rewrite !length_insert.
      * now injection Hrun as <- <- <-.
    + apply IH in Hrun; [assumption|].
      unfold has_room in *. cbn. now rewrite !length_insert.
Qed.

(** The parser is called only on rows of the range that are not null, and
    the calls are appended to the log. *)
Lemma cast_rows_log vdata remaining i st ok e st' :
  cast_rows vdata remaining i st = Some (CastReturn ok e st') ->
  exists l, parsed_rows st' = parsed_rows st ++ l /\
            forall k, In k l ->
                      (i <= k < i + remaining)%nat /\ validity vdata (sel vdata k) = true.
Proof.
  revert i st. induction remaining as [|r IH]; intros i st Hrun.
  - cbn in Hrun. injection Hrun as <- <- <-. exists []. split.
    + now rewrite app_nil_r.
    + intros k [].
  - cbn in Hrun. destruct (validity vdata (sel vdata i)) eqn:Hv; cbn in Hrun.
    + destruct (TryParseIPAddress _) as [[inet|msg]|]; [| |discriminate].
      * apply IH in Hrun as (l & Hl & Hin). cbn in Hl.
        exists (i :: l). split; [now rewrite Hl, <- app_assoc|].
        intros k [<-|Hk]; [split; [lia | assumption]|].
        apply Hin in Hk as [? ?]. split; [lia | assumption].
      * injection Hrun as <- <- <-. exists [i]. split; [reflexivity|].
        intros k [<-|[]]. split; [lia | assumption].
    + apply IH in Hrun as (l & Hl & Hin). cbn in Hl.
      exists l. split; [assumption|].
      intros k Hk. apply Hin in Hk as [? ?]. split; [lia | assumption].
Qed.

(** The loop over [n + remaining] rows is the loop over [n] rows, followed,
    if that went through, by the loop over the rest. *)
Lemma cast_rows_split vdata n remaining i st :
  cast_rows vdata (n + remaining) i st
  = match cast_rows vdata n i st with
    | Some (CastReturn true _ st1) => cast_rows vdata remaining (i + n) st1
    | other => other
    end.
Proof.
  revert i st. induction n as [|n IH]; intros i st.
  - cbn. now rewrite Nat.add_0_r.
  - cbn [Nat.add cast_rows].
    destruct (negb (validity vdata (sel vdata i))).
    + rewrite IH. now replace (S i + n)%nat with (i + S n)%nat by lia.
    + destruct (TryParseIPAddress _) as [[inet|msg]|]; [|reflexivity|reflexivity].
      rewrite IH. now replace (S i + n)%nat with (i + S n)%nat by lia.
Qed.

(** Where every row that is not null parses, the loop goes through. *)
Lemma cast_rows_success vdata n i st :
  (forall j, (i <= j < i + n)%nat -> validity vdata (sel vdata j) = true ->
             exists inet, TryParseIPAddress (cells vdata (sel vdata j)) = Some (ParseOk inet)) ->
  exists st1, cast_rows vdata n i st = Some (CastReturn true None st1).
Proof.
  revert i st. induction n as [|n IH]; intros i st Hok; [cbn; eauto|].
  cbn. destruct (validity vdata (sel vdata i)) eqn:Hv; cbn.
  - destruct (Hok i) as [inet ->]; [lia | assumption |].
    apply IH. intros j Hj. apply Hok. lia.
  - apply IH. intros j Hj. apply Hok. lia.
Qed.

(** After the loop went through, each row of the range holds its parse
    result, or its null flag. *)
Lemma cast_rows_written vdata n i st e st1 j :
  cast_rows vdata n i st = Some (CastReturn true e st1) ->
  (i <= j < i + n)%nat -> has_room (out st) (S j) ->
  if validity vdata (sel vdata j) then
    exists inet, TryParseIPAddress (cells vdata (sel vdata j)) = Some (ParseOk inet) /\
                 address_data (out st1) !! j = Some (address inet) /\
                 mask_data (out st1) !! j = Some (mask inet) /\
                 null_rows (out st1) !! j = null_rows (out st) !! j
  else
    null_rows (out st1) !! j = Some true /\
    address_data (out st1) !! j = address_data (out st) !! j /\
    mask_data (out st1) !! j = mask_data (out st) !! j.
Proof.
  revert i st. induction n as [|n IH]; intros i st Hrun Hj Hroom; [lia|].
  cbn in Hrun.
  destruct (Nat.eq_dec i j) as [->|Hne].
  - destruct Hroom as (Ha & Hm & Hn).
    destruct (validity vdata (sel vdata j)); cbn in Hrun.
    + destruct (TryParseIPAddress _) as [[inet|msg]|]; [|discriminate|discriminate].
      exists inet. split; [reflexivity|].
      apply (cast_rows_frame _ _ _ _ _ _ _ j) in Hrun as (Fa & Fm & Fn); [|lia].
      cbn in Fa, Fm, Fn. rewrite Fa, Fm, Fn.
      repeat split; apply list_lookup_insert_eq; lia.
    + apply (cast_rows_frame _ _ _ _ _ _ _ j) in Hrun as (Fa & Fm & Fn); [|lia].
      cbn in Fa, Fm, Fn. rewrite Fa, Fm, Fn.
      repeat split. apply list_lookup_insert_eq. lia.
  - destruct (validity vdata (sel vdata i)); cbn in Hrun.
    + destruct (TryParseIPAddress (cells vdata (sel vdata i))) as [[inet|msg]|];
        [|discriminate|discriminate].
      apply IH in Hrun; [|lia|].
      * cbn in Hrun. destruct (validity vdata (sel vdata j)).
        -- destruct Hrun as (ip & ? & ? & ? & ?). exists ip. now repeat split.
        -- destruct Hrun as (? & Ha & Hm). repeat split; [assumption| |].
           ++ now rewrite Ha, list_lookup_insert_ne.
           ++ now rewrite Hm, list_lookup_insert_ne.
      * unfold has_room in *. cbn. now rewrite !length_insert.
    + apply IH in Hrun; [|lia|].
      * cbn in Hrun. destruct (validity vdata (sel vdata j)).
        -- destruct Hrun as (ip & ? & ? & ? & Hn). exists ip.
           repeat split; try assumption. now rewrite Hn, list_lookup_insert_ne.
        -- assumption.
      * unfold has_room in *. cbn. now rewrite !length_insert.
Qed.

(** ** The casts: results *)

(** The spec's example batch: row 0 is filled, row 1 is null, the call fails
    on row 2, and row 0 is still there. *)
Example cast_example_batch :
  VarcharToINETCast example_batch example_result 3
  = Some (CastReturn false
            (Some ("Failed to convert string " ++ String dquote ""
                   ++ "bad" ++ String dquote ""
                   ++ " to inet: Expected a number")%string)
            {| out := {| address_data := [pack_octets 1 2 3 4; 7; 7];
                         mask_data := [32; 9; 9];
                         null_rows := [false; true; false] |};
               parsed_rows := [0; 2]%nat |}).
Proof. vm_compute. reflexivity. Qed.

(** C3: when the parser fails at row [i] (the first row at which it does),
    the batch conversion returns [false] with the parser's message, has
    called the parser on no row after [i], has written nothing at row [i] or
    after it, and the rows before [i] that were converted hold their address
    and mask. *)
Theorem first_failure_stops_batch vdata result count i e :
  (i < count)%nat -> has_room result count ->
  validity vdata (sel vdata i) = true ->
  TryParseIPAddress (cells vdata (sel vdata i)) = Some (ParseError e) ->
  (forall j, (j < i)%nat -> validity vdata (sel vdata j) = true ->
             exists inet,
               TryParseIPAddress (cells vdata (sel vdata j)) = Some (ParseOk inet)) ->
  exists st',
    VarcharToINETCast vdata result count = Some (CastReturn false (Some e) st') /\
    (forall k, In k (parsed_rows st') -> (k <= i)%nat) /\
    (forall k, (i <= k)%nat -> same_row result (out st') k) /\
    (forall j inet,
        (j < i)%nat -> validity vdata (sel vdata j) = true ->
        TryParseIPAddress (cells vdata (sel vdata j)) = Some (ParseOk inet) ->
        address_data (out st') !! j = Some (address inet) /\
        mask_data (out st') !! j = Some (mask inet)).
Proof.
  intros Hi Hroom Hvalid Hfail Hbefore.
  set (st0 := {| out := result; parsed_rows := [] |}).
  destruct (cast_rows_success vdata i 0 st0) as [st1 Hpre].
  { intros j Hj. apply Hbefore. lia. }
  exists {| out := out st1; parsed_rows := parsed_rows st1 ++ [i] |}.
  split; [|split; [|split]].
  - unfold VarcharToINETCast. fold st0.
    replace count with (i + S (count - S i))%nat by lia.
    rewrite cast_rows_split, Hpre.
    cbn [cast_rows Nat.add]. now rewrite Hvalid, Hfail.
  - cbn [parsed_rows]. intros k Hk.
    apply cast_rows_log in Hpre as (l & Hlog & Hl). rewrite Hlog in Hk. cbn in Hk.
    apply in_app_or in Hk as [Hk|[<-|[]]]; [|lia].
    apply Hl in Hk. lia.
  - intros k Hk. cbn [out].
    apply (cast_rows_frame _ _ _ _ _ _ _ k) in Hpre; [assumption | lia].
  - intros j inet Hj Hv Hparse. cbn [out].
    pose proof (cast_rows_written vdata i 0 st0 None st1 j Hpre) as Hw.
    rewrite Hv in Hw. destruct Hw as (inet' & Hparse' & Ha & Hm & _); [lia| |].
    + destruct Hroom as (? & ? & ?). unfold has_room. cbn. lia.
    + rewrite Hparse in Hparse'. injection Hparse' as <-. now split.
Qed.

Lemma first_failure_stops_batch_witness :
  exists st',
    VarcharToINETCast example_batch example_result 3
    = Some (CastReturn false
              (Some ("Failed to convert string " ++ String dquote ""
                     ++ "bad" ++ String dquote ""
                     ++ " to inet: Expected a number")%string) st') /\
    (forall k, In k (parsed_rows st') -> (k <= 2)%nat) /\
    (forall k, (2 <= k)%nat -> same_row example_result (out st') k) /\
    (forall j inet,
        (j < 2)%nat -> validity example_batch (sel example_batch j) = true ->
        TryParseIPAddress (cells example_batch (sel example_batch j))
        = Some (ParseOk inet) ->
        address_data (out st') !! j = Some (address inet) /\
        mask_data (out st') !! j = Some (mask inet)).
Proof.
  apply (first_failure_stops_batch example_batch example_result 3 2).
  - lia.
  - unfold has_room. cbn. lia.
  - reflexivity.
  - reflexivity.
  - intros [|[|j]] Hj Hv.
    + eexists. reflexivity.
    + discriminate Hv.
    + lia.
Defined.

(** A failure of the loop is the parser's failure on a row of the range that
    is not null. *)
Lemma cast_rows_failure_source vdata remaining i st e st' :
  cast_rows vdata remaining i st = Some (CastReturn false e st') ->
  exists f msg,
    (i <= f < i + remaining)%nat /\ validity vdata (sel vdata f) = true /\
    TryParseIPAddress (cells vdata (sel vdata f)) = Some (ParseError msg) /\
    e = Some msg.
Proof.
  revert i st. induction remaining as [|r IH]; intros i st Hrun; [discriminate|].
  cbn in Hrun. destruct (validity vdata (sel vdata i)) eqn:Hv; cbn in Hrun.
  - destruct (TryParseIPAddress (cells vdata (sel vdata i))) as [[inet|msg]|] eqn:Hp;
      [| |discriminate].
    + apply IH in Hrun as (f & msg & Hf & ?). exists f, msg. split; [lia | assumption].
    + injection Hrun as <- <-. exists i, msg.
      split; [lia|]. split; [assumption|]. now split.
  - apply IH in Hrun as (f & msg & Hf & ?). exists f, msg. split; [lia | assumption].
Qed.

(** C5: a null row is reached by the loop when every row before it that is
    not null parses.  Whatever the batch then returns, such a row is marked
    null, its address and mask are left as they were, and the parser is not
    called for it.  In any batch the parser is called on no null row, a
    failure is always the parser's failure on a row that is not null, and a
    batch that returns [true] has every null row marked.  A batch of null
    rows only returns [true] with zero parser calls and every row marked. *)
Theorem reached_null_rows_are_marked_not_parsed vdata result count :
  (forall ok e st' i,
      VarcharToINETCast vdata result count = Some (CastReturn ok e st') ->
      (i < count)%nat -> has_room result (S i) ->
      validity vdata (sel vdata i) = false ->
      (forall j, (j < i)%nat -> validity vdata (sel vdata j) = true ->
                 exists inet,
                   TryParseIPAddress (cells vdata (sel vdata j)) = Some (ParseOk inet)) ->
      null_rows (out st') !! i = Some true /\
      address_data (out st') !! i = address_data result !! i /\
      mask_data (out st') !! i = mask_data result !! i) /\
  (forall ok e st',
      VarcharToINETCast vdata result count = Some (CastReturn ok e st') ->
      forall i, validity vdata (sel vdata i) = false -> ~ In i (parsed_rows st')) /\
  (forall e st',
      VarcharToINETCast vdata result count = Some (CastReturn false e st') ->
      exists f msg,
        (f < count)%nat /\ validity vdata (sel vdata f) = true /\
        TryParseIPAddress (cells vdata (sel vdata f)) = Some (ParseError msg) /\
        e = Some msg) /\
  (forall e st',
      VarcharToINETCast vdata result count = Some (CastReturn true e st') ->
      forall i, (i < count)%nat -> has_room result (S i) ->
                validity vdata (sel vdata i) = false ->
                null_rows (out st') !! i = Some true) /\
  ((forall i, (i < count)%nat -> validity vdata (sel vdata i) = false) ->
   exists st',
     VarcharToINETCast vdata result count = Some (CastReturn true None st') /\
     parsed_rows st' = [] /\
     forall i, (i < count)%nat -> has_room result (S i) ->
               null_rows (out st') !! i = Some true).
Proof.
  split; [|split; [|split; [|split]]].
  - intros ok e st' i Hrun Hi Hroom Hnull Hbefore.
    unfold VarcharToINETCast in Hrun.
    set (st0 := {| out := result; parsed_rows := [] |}) in Hrun.
    destruct (cast_rows_success vdata i 0 st0) as [st1 Hpre].
    { intros j Hj. apply Hbefore. lia. }
    replace count with (i + S (count - S i))%nat in Hrun by lia.
    rewrite cast_rows_split, Hpre in Hrun.
    cbn [cast_rows Nat.add] in Hrun. rewrite Hnull in Hrun. cbn [negb] in Hrun.
    apply (cast_rows_frame _ _ _ _ _ _ _ i) in Hrun as (Fa & Fm & Fn); [|lia].
    cbn in Fa, Fm, Fn.
    destruct (cast_rows_room _ _ _ _ _ _ _ (S i) Hpre Hroom) as (_ & _ & Hlen).
    apply (cast_rows_frame _ _ _ _ _ _ _ i) in Hpre as (Ga & Gm & _); [|lia].
    cbn in Ga, Gm. rewrite Fa, Fm, Fn, Ga, Gm.
    repeat split. apply list_lookup_insert_eq. lia.
  - intros ok e st' Hrun i Hnull Hin.
    apply cast_rows_log in Hrun as (l & Hl & Hvalid).
    rewrite Hl in Hin. cbn in Hin. apply Hvalid in Hin as [_ Hin]. congruence.
  - intros e st' Hrun.
    apply cast_rows_failure_source in Hrun as (f & msg & Hf & Hrest).
    exists f, msg. split; [lia | assumption].
  - intros e st' Hrun i Hi Hroom Hnull.
    pose proof (cast_rows_written vdata count 0 _ e st' i Hrun) as Hw.
    rewrite Hnull in Hw. now apply Hw; [lia|].
  - intros Hall.
    destruct (cast_rows_success vdata count 0 {| out := result; parsed_rows := [] |})
      as [st' Hrun].
    { intros j Hj Hv. rewrite Hall in Hv by lia. discriminate. }
    exists st'. split; [exact Hrun|]. split.
    + apply cast_rows_log in Hrun as (l & Hl & Hvalid). rewrite Hl. cbn.
      destruct l as [|k l]; [reflexivity|].
      destruct (Hvalid k) as [Hk Hv]; [now left|].
      rewrite Hall in Hv by lia. discriminate.
    + intros i Hi Hroom.
      pose proof (cast_rows_written vdata count 0 _ None st' i Hrun) as Hw.
      rewrite (Hall i Hi) in Hw. now apply Hw; [lia|].
Qed.

(** In the spec's example batch the call fails on row 2; the null row 1
    before it is marked all the same, and its data is left alone. *)
Lemma reached_null_rows_are_marked_not_parsed_witness :
  null_rows {| address_data := [pack_octets 1 2 3 4; 7; 7];
               mask_data := [32; 9; 9];
               null_rows := [false; true; false] |} !! 1%nat = Some true /\
  [pack_octets 1 2 3 4; 7; 7] !! 1%nat = address_data example_result !! 1%nat /\
  [32; 9; 9] !! 1%nat = mask_data example_result !! 1%nat.
Proof.
  apply (proj1 (reached_null_rows_are_marked_not_parsed example_batch example_result 3)
           false
           (Some ("Failed to convert string " ++ String dquote ""
                  ++ "bad" ++ String dquote ""
                  ++ " to inet: Expected a number")%string)
           {| out := {| address_data := [pack_octets 1 2 3 4; 7; 7];
                        mask_data := [32; 9; 9];
                        null_rows := [false; true; false] |};
              parsed_rows := [0; 2]%nat |} 1%nat).
  - vm_compute. reflexivity.
  - lia.
  - unfold has_room. cbn. lia.
  - reflexivity.
  - intros [|j] Hj Hv; [|lia]. eexists. vm_compute. reflexivity.
Defined.

(** Not every null row is marked: where the null row lies behind the failing
    row the loop never gets to it.  In the batch ["bad"], null the call
    returns at row 0 and row 1 is left unmarked. *)
Lemma null_row_behind_failure_is_not_marked :
  validity failing_then_null_batch (sel failing_then_null_batch 1) = false /\
  VarcharToINETCast failing_then_null_batch example_result 2
  = Some (CastReturn false
            (Some ("Failed to convert string " ++ String dquote ""
                   ++ "bad" ++ String dquote ""
                   ++ " to inet: Expected a number")%string)
            {| out := example_result; parsed_rows := [0%nat] |}) /\
  null_rows (out {| out := example_result; parsed_rows := [0%nat] |}) !! 1%nat
  <> Some true.
Proof.
  split; [reflexivity|]. split; [vm_compute; reflexivity | discriminate].
Qed.

(** C6: the reverse cast throws [InternalException] on every invocation; it
    returns neither success nor a soft failure, and no text. *)
Theorem reverse_cast_always_throws source result count :
  INETToVarcharCast source result count
  = CastThrow (InternalException "INET to Varchar cast") /\
  (forall ok e texts, INETToVarcharCast source result count <> CastReturn ok e texts).
Proof. split; [reflexivity | discriminate]. Qed.


(** * Further properties of the scanner *)

Lemma step_count_invariant input s s' :
  count_invariant s -> step input s = inl s' ->
  count_invariant s' /\ (blocks_left s' < blocks_left s)%nat.
Proof.
  unfold step, count_invariant, blocks_left. destruct (pc s).
  - destruct (Nat.eqb _ _); [discriminate|].
    destruct (TryCast_uint8 _); [|discriminate].
    intros Hn [= <-]. cbn [pc number_count].
    destruct (Nat.eqb_spec (number_count s) 3) as [E|E]; lia.
  - destruct (String.get _ _) as [ch|]; [|discriminate].
    destruct (Ascii.eqb ch "."); [|discriminate].
    intros Hn [= <-]. cbn [pc number_count]. lia.
  - destruct (String.get _ _) as [ch|]; [|discriminate].
    destruct (Ascii.eqb ch "/"); [|discriminate].
    destruct (TryCast_uint8 _); discriminate.
Qed.

Lemma run_within_blocks_left input fuel s :
  count_invariant s -> (blocks_left s <= fuel)%nat ->
  exists r, run input fuel s = Some r.
Proof.
  revert s. induction fuel as [|fuel IH]; intros s Hinv Hf.
  - exfalso. revert Hinv Hf. unfold count_invariant, blocks_left.
    destruct (pc s); lia.
  - cbn [run]. destruct (step input s) as [s'|r] eqn:Hstep; [|eauto].
    destruct (step_count_invariant _ _ _ Hinv Hstep) as [Hinv' Hlt].
    apply IH; [assumption | lia].
Qed.

(** Eight blocks are enough on every input. *)
Lemma run_eight input : TryParseIPAddress input = run input 8 initial.
Proof.
  unfold TryParseIPAddress.
  destruct (run_within_blocks_left input 8 initial) as [r Hr];
    [cbv; lia | cbv; lia |].
  destruct (run_returns input (S (String.length input)) initial) as [r' Hr'];
    [cbn; lia | cbn; lia |].
  destruct (Nat.le_ge_cases 8 (S (String.length input))) as [Hle|Hle].
  - rewrite Hr. now apply (run_more _ 8).
  - rewrite Hr'. symmetry. now apply (run_more _ (S (String.length input))).
Qed.

(** A block that returns a failure has built its message with
    [IPAddressError] from the input and one of the four reasons. *)
Lemma step_error_reason input s e :
  step input s = inr (ParseError e) ->
  exists reason, In reason reasons /\ ParseError e = IPAddressError input reason.
Proof.
  unfold step, reasons. destruct (pc s).
  - destruct (Nat.eqb _ _).
    + intros [= <-]. eexists. split; [|reflexivity]. cbn. auto.
    + destruct (TryCast_uint8 _); [discriminate|].
      intros [= <-]. eexists. split; [|reflexivity]. cbn. auto.
  - destruct (String.get _ _) as [ch|].
    + destruct (Ascii.eqb ch "."); [discriminate|].
      intros [= <-]. eexists. split; [|reflexivity]. cbn. auto.
    + intros [= <-]. eexists. split; [|reflexivity]. cbn. auto.
  - destruct (String.get _ _) as [ch|]; [|discriminate].
    destruct (Ascii.eqb ch "/").
    + destruct (TryCast_uint8 _); [discriminate|].
      intros [= <-]. eexists. split; [|reflexivity]. cbn. auto.
    + intros [= <-]. eexists. split; [|reflexivity]. cbn. auto.
Qed.

Lemma run_error_reason input fuel s e :
  run input fuel s = Some (ParseError e) ->
  exists reason, In reason reasons /\ ParseError e = IPAddressError input reason.
Proof.
  revert s. induction fuel as [|fuel IH]; intros s; [discriminate|].
  cbn [run]. destruct (step input s) as [s'|r] eqn:Hstep; [apply IH|].
  intros [= ->]. now apply step_error_reason in Hstep.
Qed.

Section BlockCases.
Local Open Scope string_scope.

(** Any text is a run of digits followed by text that starts with none. *)
Lemma digit_run_split suf :
  exists ds rest,
    suf = ds ++ rest /\ all_digits ds = true /\ no_digit_ahead rest = true.
Proof.
  induction suf as [|ch suf (ds & rest & Hs & Hd & Hr)].
  - exists "", "". now repeat split.
  - destruct (is_digit ch) eqn:Hch.
    + exists (String ch ds), rest. cbn. rewrite Hch, Hd, <- Hs. now repeat split.
    + exists "", (String ch suf). cbn. rewrite Hch. now repeat split.
Qed.

(** [parse_number] where no digit follows. *)
Lemma step_number_no_digit input pre rest k ad st :
  input = pre ++ rest -> no_digit_ahead rest = true ->
  step input {| pc := parse_number; c := String.length pre; number_count := k;
                addr := ad; start := st |}
  = inr (IPAddressError input "Expected a number").
Proof.
  intros -> Hrest. unfold step. cbn [pc c number_count addr start].
  pose proof (scan_digits_run pre "" rest
                (String.length (pre ++ rest) - String.length pre)
                eq_refl Hrest) as Hscan.
  cbn [String.append String.length] in Hscan.
  rewrite Hscan by lia. rewrite Nat.add_0_r, Nat.eqb_refl. reflexivity.
Qed.

(** [parse_number] in front of a run of digits that is worth more than 255. *)
Lemma step_number_range input pre ds rest k ad st :
  input = pre ++ ds ++ rest ->
  ds <> "" -> all_digits ds = true -> (255 < digits_value ds)%Z ->
  no_digit_ahead rest = true ->
  step input {| pc := parse_number; c := String.length pre; number_count := k;
                addr := ad; start := st |}
  = inr (IPAddressError input "Expected a number between 0 and 255").
Proof.
  intros -> Hne Hds Hv Hrest.
  assert (1 <= String.length ds)%nat as Hlen
    by (destruct ds; [congruence | cbn; lia]).
  unfold step. cbn [pc c number_count addr start].
  rewrite scan_digits_run by (rewrite ?length_app; solve [assumption | lia]).
  destruct (Nat.eqb_spec (String.length pre) (String.length pre + String.length ds));
    [lia|].
  replace (String.length pre + String.length ds - String.length pre)%nat
    with (String.length ds) by lia.
  rewrite substring_middle. unfold TryCast_uint8.
  destruct ds as [|ch ds]; [congruence|]. rewrite Hds.
  destruct (Z.leb_spec (digits_value (String ch ds)) 255); [lia | reflexivity].
Qed.

(** [parse_dot] in front of a character that is not a dot. *)
Lemma step_dot_other input pre ch rest k ad st :
  input = pre ++ String ch rest -> ch <> "."%char ->
  step input {| pc := parse_dot; c := String.length pre; number_count := k;
                addr := ad; start := st |}
  = inr (IPAddressError input "Expected a dot").
Proof.
  intros -> Hch. unfold step. cbn [pc c number_count addr start].
  rewrite get_at_prefix_end. cbn [String.get].
  destruct (Ascii.eqb_spec ch "."); [contradiction | reflexivity].
Qed.

(** [parse_mask] in front of a character that is not a slash. *)
Lemma step_mask_other input pre ch rest k ad st :
  input = pre ++ String ch rest -> ch <> "/"%char ->
  step input {| pc := parse_mask; c := String.length pre; number_count := k;
                addr := ad; start := st |}
  = inr (IPAddressError input "Expected a slash").
Proof.
  intros -> Hch. unfold step. cbn [pc c number_count addr start].
  rewrite get_at_prefix_end. cbn [String.get].
  destruct (Ascii.eqb_spec ch "/"); [contradiction | reflexivity].
Qed.

(** What [parse_number] does, by the text in front of it. *)
Lemma step_number_cases input pre suf k ad st :
  input = pre ++ suf ->
  let s := {| pc := parse_number; c := String.length pre; number_count := k;
              addr := ad; start := st |} in
  (exists reason, step input s = inr (IPAddressError input reason)) \/
  (exists ds rest,
      suf = ds ++ rest /\ is_octet ds = true /\ no_digit_ahead rest = true /\
      step input s
      = inl {| pc := if Nat.eqb (S k) 4 then parse_mask else parse_dot;
               c := String.length (pre ++ ds); number_count := S k;
               addr := accumulate ad (digits_value ds) k;
               start := String.length pre |}).
Proof.
  intros Hin s. destruct (digit_run_split suf) as (ds & rest & Hs & Hd & Hr).
  destruct ds as [|ch ds].
  - left. eexists. apply (step_number_no_digit input pre rest); [|assumption].
    now rewrite Hin, Hs.
  - destruct (Z.leb_spec (digits_value (String ch ds)) 255) as [Hv|Hv].
    + right. exists (String ch ds), rest.
      assert (is_octet (String ch ds) = true) as Hoct.
      { unfold is_octet. rewrite Hd. cbn [String.eqb negb andb].
        now apply Z.leb_le. }
      repeat split; try assumption.
      apply (step_number_octet input pre (String ch ds) rest); try assumption.
      now rewrite Hin, Hs.
    + left. eexists.
      apply (step_number_range input pre (String ch ds) rest); try assumption.
      * now rewrite Hin, Hs.
      * discriminate.
Qed.
End BlockCases.

(** ** Any number of octets *)

Section OctetLists.
Local Open Scope string_scope.

Lemma dotted_cons o octets :
  octets <> [] -> dotted (o :: octets) = o ++ "." ++ dotted octets.
Proof. destruct octets; [congruence | reflexivity]. Qed.

Lemma dotted_snoc octets o :
  octets <> [] -> dotted (octets ++ [o]) = dotted octets ++ "." ++ o.
Proof.
  induction octets as [|a octets IH]; [congruence|]. intros _.
  destruct octets as [|b octets]; [reflexivity|].
  change ((a :: b :: octets) ++ [o])%list with (a :: ((b :: octets) ++ [o]))%list.
  rewrite dotted_cons by discriminate.
  rewrite IH by discriminate.
  rewrite (dotted_cons a (b :: octets)) by discriminate.
  now rewrite !app_assoc_string.
Qed.

(** The scanner after one to four octets with dots between them. *)
Lemma run_octets octets rest n :
  (1 <= List.length octets <= 4)%nat ->
  forallb is_octet octets = true -> no_digit_ahead rest = true ->
  run (dotted octets ++ rest) (2 * List.length octets - 1 + n) initial
  = run (dotted octets ++ rest) n (after_octets octets).
Proof.
  intros Hlen Hoct Hrest. unfold after_octets.
  destruct octets as [|a [|b [|c' [|d [|e l]]]]]; cbn [List.length] in Hlen; try lia;
    cbn [forallb] in Hoct; cbn [dotted String.concat List.length List.last addr_after].
  - apply andb_prop in Hoct as [Ha _].
    change (2 * 1 - 1 + n)%nat with (1 + n)%nat.
    rewrite run_octet_1 by assumption.
    do 2 f_equal. lia.
  - apply andb_prop in Hoct as [Ha Hoct]. apply andb_prop in Hoct as [Hb _].
    change (2 * 2 - 1 + n)%nat with (3 + n)%nat.
    rewrite !app_assoc_string. rewrite run_octet_2 by assumption.
    f_equal. rewrite <- !app_assoc_string. f_equal.
    rewrite !length_app. lia.
  - apply andb_prop in Hoct as [Ha Hoct]. apply andb_prop in Hoct as [Hb Hoct].
    apply andb_prop in Hoct as [Hc _].
    change (2 * 3 - 1 + n)%nat with (5 + n)%nat.
    rewrite !app_assoc_string. rewrite run_octet_3 by assumption.
    f_equal. rewrite <- !app_assoc_string. f_equal.
    rewrite !length_app. lia.
  - apply andb_prop in Hoct as [Ha Hoct]. apply andb_prop in Hoct as [Hb Hoct].
    apply andb_prop in Hoct as [Hc Hoct]. apply andb_prop in Hoct as [Hd _].
    change (2 * 4 - 1 + n)%nat with (7 + n)%nat.
    rewrite !app_assoc_string. rewrite run_octet_4 by assumption.
    f_equal. rewrite <- !app_assoc_string. f_equal.
    rewrite !length_app. lia.
Qed.

(** One more block after the octets, and it returns. *)
Lemma after_octets_return octets rest r :
  (1 <= List.length octets <= 4)%nat ->
  forallb is_octet octets = true -> no_digit_ahead rest = true ->
  step (dotted octets ++ rest) (after_octets octets) = inr r ->
  TryParseIPAddress (dotted octets ++ rest) = Some r.
Proof.
  intros Hlen Hoct Hrest Hstep. rewrite run_eight.
  replace 8%nat
    with (2 * List.length octets - 1 + S (8 - 2 * List.length octets))%nat by lia.
  rewrite run_octets by assumption. cbn [run]. now rewrite Hstep.
Qed.

(** Two more blocks after the octets, and the second returns. *)
Lemma after_octets_return_2 octets rest s' r :
  (1 <= List.length octets <= 3)%nat ->
  forallb is_octet octets = true -> no_digit_ahead rest = true ->
  step (dotted octets ++ rest) (after_octets octets) = inl s' ->
  step (dotted octets ++ rest) s' = inr r ->
  TryParseIPAddress (dotted octets ++ rest) = Some r.
Proof.
  intros Hlen Hoct Hrest Hstep Hstep'. rewrite run_eight.
  replace 8%nat
    with (2 * List.length octets - 1 + S (S (7 - 2 * List.length octets)))%nat by lia.
  rewrite run_octets by (assumption || lia). cbn [run]. now rewrite Hstep, Hstep'.
Qed.

Lemma after_octets_dot octets :
  (List.length octets <= 3)%nat ->
  after_octets octets
  = {| pc := parse_dot; c := String.length (dotted octets);
       number_count := List.length octets; addr := addr_after 0 0 octets;
       start := String.length (dotted octets) - String.length (List.last octets "") |}.
Proof.
  intros Hlen. unfold after_octets.
  destruct (Nat.eqb_spec (List.length octets) 4); [lia | reflexivity].
Qed.

Lemma after_octets_mask octets :
  List.length octets = 4%nat ->
  after_octets octets
  = {| pc := parse_mask; c := String.length (dotted octets);
       number_count := 4; addr := addr_after 0 0 octets;
       start := String.length (dotted octets) - String.length (List.last octets "") |}.
Proof. intros Hlen. unfold after_octets. now rewrite Hlen. Qed.

Lemma no_digit_ahead_char ch rest :
  is_digit ch = false -> no_digit_ahead (String ch rest) = true.
Proof. intros H. cbn. now rewrite H. Qed.
End OctetLists.

(** ** The scanner: failures by the shape of the input *)

Section ScannerFailures.
Local Open Scope string_scope.

(** X1: whatever fails, the message is [Failed to convert string "<input>" to
    inet: <reason>], the input in full and one of the four reasons. *)
Theorem failure_message_format input e :
  TryParseIPAddress input = Some (ParseError e) ->
  exists reason,
    In reason reasons /\
    e = "Failed to convert string " ++ String dquote "" ++ input
        ++ String dquote "" ++ " to inet: " ++ reason.
Proof.
  unfold TryParseIPAddress. intros Hrun.
  apply run_error_reason in Hrun as (reason & Hin & Heq).
  exists reason. split; [assumption|]. now injection Heq.
Qed.

Lemma failure_message_format_witness :
  exists reason,
    In reason reasons /\
    "Failed to convert string " ++ String dquote "" ++ "1.2.3.4x"
    ++ String dquote "" ++ " to inet: Expected a slash"
    = "Failed to convert string " ++ String dquote "" ++ "1.2.3.4x"
      ++ String dquote "" ++ " to inet: " ++ reason.
Proof. apply (failure_message_format "1.2.3.4x"). reflexivity. Defined.

(** X4: after one, two or three octets a character that is neither a digit nor
    a dot gives [Expected a dot], whatever follows it. *)
Theorem wrong_separator_expected_dot octets ch rest :
  (1 <= List.length octets <= 3)%nat -> forallb is_octet octets = true ->
  is_digit ch = false -> ch <> "."%char ->
  TryParseIPAddress (dotted octets ++ String ch rest)
  = Some (ParseError ("Failed to convert string " ++ String dquote ""
                      ++ (dotted octets ++ String ch rest) ++ String dquote ""
                      ++ " to inet: Expected a dot")).
Proof.
  intros Hlen Hoct Hch Hdot.
  apply after_octets_return; try assumption; [lia | now apply no_digit_ahead_char |].
  rewrite after_octets_dot by lia.
  now rewrite (step_dot_other _ (dotted octets) ch rest).
Qed.

Lemma wrong_separator_expected_dot_witness :
  TryParseIPAddress "1.2.3/24"
  = Some (ParseError ("Failed to convert string " ++ String dquote ""
                      ++ "1.2.3/24" ++ String dquote ""
                      ++ " to inet: Expected a dot")).
Proof.
  apply (wrong_separator_expected_dot ["1"; "2"; "3"] "/" "24");
    [cbn; lia | reflexivity | reflexivity | discriminate].
Defined.

(** X3: after four octets a character that is neither a digit nor a slash gives
    [Expected a slash], whatever follows it. *)
Theorem junk_after_fourth_octet_expected_slash octets ch rest :
  List.length octets = 4%nat -> forallb is_octet octets = true ->
  is_digit ch = false -> ch <> "/"%char ->
  TryParseIPAddress (dotted octets ++ String ch rest)
  = Some (ParseError ("Failed to convert string " ++ String dquote ""
                      ++ (dotted octets ++ String ch rest) ++ String dquote ""
                      ++ " to inet: Expected a slash")).
Proof.
  intros Hlen Hoct Hch Hslash.
  apply after_octets_return; try assumption; [lia | now apply no_digit_ahead_char |].
  rewrite after_octets_mask by assumption.
  now rewrite (step_mask_other _ (dotted octets) ch rest).
Qed.

Lemma junk_after_fourth_octet_expected_slash_witness :
  TryParseIPAddress "1.2.3.4.5"
  = Some (ParseError ("Failed to convert string " ++ String dquote ""
                      ++ "1.2.3.4.5" ++ String dquote ""
                      ++ " to inet: Expected a slash")).
Proof.
  apply (junk_after_fourth_octet_expected_slash ["1"; "2"; "3"; "4"] "." "5");
    [reflexivity | reflexivity | reflexivity | discriminate].
Defined.

(** X5: after one, two or three octets and a dot, text that does not start with
    a digit (or no text at all) gives [Expected a number]. *)
Theorem no_digit_after_dot_expected_number octets rest :
  (1 <= List.length octets <= 3)%nat -> forallb is_octet octets = true ->
  no_digit_ahead rest = true ->
  TryParseIPAddress (dotted octets ++ "." ++ rest)
  = Some (ParseError ("Failed to convert string " ++ String dquote ""
                      ++ (dotted octets ++ "." ++ rest) ++ String dquote ""
                      ++ " to inet: Expected a number")).
Proof.
  intros Hlen Hoct Hrest.
  eapply after_octets_return_2; try assumption; [reflexivity | |].
  - rewrite after_octets_dot by lia.
    now apply (step_dot_present _ (dotted octets) rest).
  - rewrite (step_number_no_digit _ (dotted octets ++ ".") rest);
      [reflexivity | now rewrite app_assoc_string | assumption].
Qed.

Lemma no_digit_after_dot_expected_number_witness :
  TryParseIPAddress "1.2."
  = Some (ParseError ("Failed to convert string " ++ String dquote ""
                      ++ "1.2." ++ String dquote ""
                      ++ " to inet: Expected a number")).
Proof.
  apply (no_digit_after_dot_expected_number ["1"; "2"] "");
    [cbn; lia | reflexivity | reflexivity].
Defined.

(** X2: a run of digits worth more than 255, in any of the four octet positions,
    gives [Expected a number between 0 and 255], whatever follows it. *)
Theorem octet_above_255_out_of_range octets ds rest :
  (List.length octets <= 3)%nat -> forallb is_octet octets = true ->
  ds <> "" -> all_digits ds = true -> (255 < digits_value ds)%Z ->
  no_digit_ahead rest = true ->
  TryParseIPAddress (dotted (octets ++ [ds]) ++ rest)
  = Some (ParseError ("Failed to convert string " ++ String dquote ""
                      ++ (dotted (octets ++ [ds]) ++ rest) ++ String dquote ""
                      ++ " to inet: Expected a number between 0 and 255")).
Proof.
  intros Hlen Hoct Hne Hds Hv Hrest.
  destruct octets as [|o octets].
  - cbn [app dotted String.concat]. rewrite run_eight. cbn [run]. unfold initial.
    now rewrite (step_number_range (ds ++ rest) "" ds rest).
  - assert (dotted ((o :: octets) ++ [ds]) ++ rest
            = dotted (o :: octets) ++ "." ++ ds ++ rest) as Hin
      by (rewrite dotted_snoc by discriminate; now rewrite !app_assoc_string).
    rewrite Hin. cbn [List.length] in Hlen.
    eapply after_octets_return_2; try assumption;
      [cbn [List.length]; lia | reflexivity | |].
    + rewrite after_octets_dot by (cbn [List.length]; lia).
      now apply (step_dot_present _ (dotted (o :: octets)) (ds ++ rest)).
    + rewrite (step_number_range _ (dotted (o :: octets) ++ ".") ds rest);
        try assumption; [reflexivity | now rewrite !app_assoc_string].
Qed.

Lemma octet_above_255_out_of_range_witness :
  TryParseIPAddress "256.1.1.1"
  = Some (ParseError ("Failed to convert string " ++ String dquote ""
                      ++ "256.1.1.1" ++ String dquote ""
                      ++ " to inet: Expected a number between 0 and 255")) /\
  TryParseIPAddress "1.2.3.999/8"
  = Some (ParseError ("Failed to convert string " ++ String dquote ""
                      ++ "1.2.3.999/8" ++ String dquote ""
                      ++ " to inet: Expected a number between 0 and 255")).
Proof.
  split.
  - apply (octet_above_255_out_of_range [] "256" ".1.1.1");
      [cbn; lia | reflexivity | discriminate | reflexivity | reflexivity | reflexivity].
  - apply (octet_above_255_out_of_range ["1"; "2"; "3"] "999" "/8");
      [cbn; lia | reflexivity | discriminate | reflexivity | reflexivity | reflexivity].
Defined.
End ScannerFailures.

(** ** The scanner: what a success says of the input *)

Section ScannerSuccess.
Local Open Scope string_scope.

(** From [parse_number] with [m] octets still to come: a success means the
    rest of the input is those octets, then nothing or a slash. *)
Lemma run_number_success input m :
  forall pre suf k ad st fuel r,
    input = pre ++ suf -> (k + m = 4)%nat -> (1 <= m)%nat ->
    run input fuel {| pc := parse_number; c := String.length pre; number_count := k;
                      addr := ad; start := st |} = Some (ParseOk r) ->
    exists octets ending,
      List.length octets = m /\ forallb is_octet octets = true /\
      suf = dotted octets ++ ending /\
      address r = addr_after ad k octets /\
      ((ending = "" /\ mask r = 32%Z) \/
       (exists tail, ending = "/" ++ tail /\
                     mask r = digits_value (List.last octets ""))).
Proof.
  induction m as [|m IH]; intros pre suf k ad st fuel r Hin Hk Hm Hrun; [lia|].
  destruct fuel as [|fuel]; [discriminate|]. cbn [run] in Hrun.
  destruct (step_number_cases input pre suf k ad st Hin)
    as [[reason Hstep]|(ds & rest & Hsuf & Hoct & Hrest & Hstep)];
    rewrite Hstep in Hrun; [discriminate|].
  destruct fuel as [|fuel]; [discriminate|]. cbn [run] in Hrun.
  assert (input = (pre ++ ds) ++ rest) as Hin'
    by now rewrite Hin, Hsuf, app_assoc_string.
  destruct m as [|m].
  - (* the fourth octet: [parse_mask] *)
    assert (k = 3%nat) as -> by lia. cbn [Nat.eqb] in Hrun.
    assert (address r = accumulate ad (digits_value ds) 3 /\
            ((rest = "" /\ mask r = 32%Z) \/
             (exists tail, rest = "/" ++ tail /\ mask r = digits_value ds))) as [Ha Hmask].
    { destruct rest as [|ch rest].
      - rewrite app_empty_r in Hin'. rewrite Hin' in Hrun.
        rewrite step_mask_end in Hrun. injection Hrun as <-.
        split; [reflexivity | now left].
      - destruct (Ascii.eqb_spec ch "/") as [->|Hch].
        + rewrite (step_mask_slash input pre ds rest) in Hrun;
            [|now rewrite Hin, Hsuf | assumption].
          injection Hrun as <-. split; [reflexivity|]. right. now exists rest.
        + rewrite (step_mask_other input (pre ++ ds) ch rest) in Hrun by assumption.
          discriminate. }
    exists [ds], rest.
    cbn [List.length forallb dotted String.concat List.last addr_after].
    rewrite Hoct. now repeat split.
  - (* an earlier octet: [parse_dot], then the next *)
    destruct (Nat.eqb_spec (S k) 4) as [E|_]; [lia|].
    destruct rest as [|ch rest].
    + rewrite app_empty_r in Hin'. rewrite Hin' in Hrun.
      rewrite step_dot_end in Hrun. discriminate.
    + destruct (Ascii.eqb_spec ch ".") as [->|Hch].
      * rewrite (step_dot_present input (pre ++ ds) rest) in Hrun by assumption.
        apply (IH ((pre ++ ds) ++ ".") rest) in Hrun; [| |lia|lia].
        -- destruct Hrun as (octets & ending & Hlen & Hocts & Hrest' & Haddr & Hmask).
           exists (ds :: octets), ending.
           assert (octets <> []) as Hne by (destruct octets; [discriminate | congruence]).
           rewrite dotted_cons by assumption.
           cbn [List.length forallb addr_after]. rewrite Hoct, Hocts, Hlen.
           repeat split; try assumption.
           ++ rewrite Hsuf, Hrest'. now rewrite !app_assoc_string.
           ++ destruct octets as [|o octets]; [congruence | exact Hmask].
        -- rewrite Hin'. now rewrite !app_assoc_string.
      * rewrite (step_dot_other input (pre ++ ds) ch rest) in Hrun by assumption.
        discriminate.
Qed.

(** A success, read back: the input is four octets with dots between them,
    then nothing (mask 32) or a slash and whatever (mask: the fourth octet);
    the address is their packing, wrapped to 32 bits. *)
Lemma parse_success_shape input r :
  TryParseIPAddress input = Some (ParseOk r) ->
  exists a b c' d,
    is_octet a = true /\ is_octet b = true /\ is_octet c' = true /\ is_octet d = true /\
    address r = wrap_int32 (pack_octets (digits_value a) (digits_value b)
                              (digits_value c') (digits_value d)) /\
    ((input = a ++ "." ++ b ++ "." ++ c' ++ "." ++ d /\ mask r = 32%Z) \/
     (exists tail, input = a ++ "." ++ b ++ "." ++ c' ++ "." ++ d ++ "/" ++ tail /\
                   mask r = digits_value d)).
Proof.
  unfold TryParseIPAddress, initial. intros Hrun.
  apply (run_number_success input 4 "" input) in Hrun; [|reflexivity|lia|lia].
  destruct Hrun as (octets & ending & Hlen & Hoct & Hin & Haddr & Hmask).
  destruct octets as [|a [|b [|c' [|d [|e l]]]]]; try discriminate.
  cbn [forallb] in Hoct.
  apply andb_prop in Hoct as [Ha Hoct]. apply andb_prop in Hoct as [Hb Hoct].
  apply andb_prop in Hoct as [Hc Hoct]. apply andb_prop in Hoct as [Hd _].
  exists a, b, c', d. repeat split; try assumption.
  - rewrite Haddr. cbn [addr_after].
    now apply accumulate_octets; apply is_octet_range.
  - cbn [dotted String.concat List.last] in Hin, Hmask.
    destruct Hmask as [[-> Hmask]|(tail & -> & Hmask)].
    + left. split; [|assumption]. now rewrite Hin, app_empty_r.
    + right. exists tail. split; [|assumption]. now rewrite Hin, !app_assoc_string.
Qed.
End ScannerSuccess.

Section ScannerShape.
Local Open Scope string_scope.

(** X6: the inputs that parse are exactly the texts [a.b.c.d] and [a.b.c.d/...]
    with four octets; the result is the wrapped packing of the octets, with
    mask 32 without a slash and the value of [d] with one. *)
Theorem parse_succeeds_iff input r :
  TryParseIPAddress input = Some (ParseOk r) <->
  exists a b c' d,
    is_octet a = true /\ is_octet b = true /\ is_octet c' = true /\ is_octet d = true /\
    address r = wrap_int32 (pack_octets (digits_value a) (digits_value b)
                              (digits_value c') (digits_value d)) /\
    ((input = a ++ "." ++ b ++ "." ++ c' ++ "." ++ d /\ mask r = 32%Z) \/
     (exists tail, input = a ++ "." ++ b ++ "." ++ c' ++ "." ++ d ++ "/" ++ tail /\
                   mask r = digits_value d)).
Proof.
  split; [apply parse_success_shape|].
  intros (a & b & c' & d & Ha & Hb & Hc & Hd & Haddr & Hshape).
  destruct r as [ad m]. cbn [address mask] in *.
  destruct Hshape as [[-> ->]|(tail & -> & ->)]; rewrite Haddr.
  - now apply parse_quad.
  - now apply parse_quad_slash.
Qed.

(** X7: a parsed address fits 32 bits, signed; a parsed mask is an octet, and it
    is 32 or byte 3 of the address. *)
Theorem parse_result_ranges input r :
  TryParseIPAddress input = Some (ParseOk r) ->
  (- 2 ^ 31 <= address r < 2 ^ 31)%Z /\
  (0 <= mask r <= 255)%Z /\
  (mask r = 32%Z \/ mask r = byte_of (address r) 3).
Proof.
  intros (a & b & c' & d & Ha & Hb & Hc & Hd & Haddr & Hshape)%parse_success_shape.
  apply is_octet_range in Ha, Hb, Hc, Hd.
  destruct (wrap_pack_bytes _ _ _ _ Ha Hb Hc Hd) as (_ & _ & _ & H3).
  rewrite <- Haddr in H3. split; [|split].
  - rewrite Haddr. unfold wrap_int32.
    pose proof (Z.mod_pos_bound
                  (pack_octets (digits_value a) (digits_value b) (digits_value c')
                     (digits_value d) + 2 ^ 31) (2 ^ 32) eq_refl).
    lia.
  - destruct Hshape as [[_ ->]|(tail & _ & ->)]; lia.
  - destruct Hshape as [[_ ->]|(tail & _ & ->)]; [now left | right; congruence].
Qed.

Lemma parse_result_ranges_witness :
  (- 2 ^ 31 <= address {| address := -16777215; mask := 255 |} < 2 ^ 31)%Z /\
  (0 <= mask {| address := -16777215; mask := 255 |} <= 255)%Z /\
  (mask {| address := -16777215; mask := 255 |} = 32%Z \/
   mask {| address := -16777215; mask := 255 |}
   = byte_of (address {| address := -16777215; mask := 255 |}) 3).
Proof. apply (parse_result_ranges "1.0.0.255/8"). reflexivity. Defined.
End ScannerShape.

(** ** The scanner: blocks *)

(** In [parse_dot] and [parse_mask] the text between [start] and [c] is the
    octet that was converted last. *)
Lemma reachable_last_octet input s :
  reachable input s -> pc s <> parse_number ->
  exists v, TryCast_uint8 (substring (start s) (c s - start s) input) = Some v.
Proof.
  induction 1 as [|s s' Hr IH Hstep]; [intros []; reflexivity|].
  revert Hstep. unfold step. destruct (pc s).
  - destruct (Nat.eqb _ _); [discriminate|].
    destruct (TryCast_uint8 (substring (c s) _ _)) as [number|] eqn:Hcast;
      [|discriminate].
    intros [= <-] _. cbn [c start]. eauto.
  - destruct (String.get _ _) as [ch|]; [|discriminate].
    destruct (Ascii.eqb ch "."); [|discriminate].
    intros [= <-]. cbn [pc]. congruence.
  - destruct (String.get _ _) as [ch|]; [|discriminate].
    destruct (Ascii.eqb ch "/"); [|discriminate].
    destruct (TryCast_uint8 _); discriminate.
Qed.

Lemma reachable_blocks input n s s' :
  reachable input s -> blocks input n s = Some s' -> reachable input s'.
Proof.
  revert s. induction n as [|n IH]; intros s Hr; cbn [blocks].
  - now intros [= <-].
  - destruct (step input s) as [s1|r] eqn:Hstep; [|discriminate].
    apply IH. now apply (reachable_step input s).
Qed.

(** X8: the range check of [parse_mask] never fires: wherever the scanner gets
    to that block, it returns a success or [Expected a slash]. *)
Theorem mask_block_never_out_of_range input s :
  reachable input s -> pc s = parse_mask ->
  (exists r, step input s = inr (ParseOk r)) \/
  step input s
  = inr (ParseError ("Failed to convert string " ++ String dquote ""
                     ++ input ++ String dquote ""
                     ++ " to inet: Expected a slash")%string).
Proof.
  intros Hr Hpc.
  destruct (reachable_last_octet input s Hr) as [v Hv]; [congruence|].
  unfold step. rewrite Hpc.
  destruct (String.get (c s) input) as [ch|]; [|eauto].
  destruct (Ascii.eqb ch "/"); [|now right].
  rewrite Hv. eauto.
Qed.

Lemma mask_block_never_out_of_range_witness :
  (exists r, step "1.2.3.4/24"
               {| pc := parse_mask; c := 7; number_count := 4;
                  addr := pack_octets 1 2 3 4; start := 6 |} = inr (ParseOk r)) \/
  step "1.2.3.4/24"
    {| pc := parse_mask; c := 7; number_count := 4;
       addr := pack_octets 1 2 3 4; start := 6 |}
  = inr (ParseError ("Failed to convert string " ++ String dquote ""
                     ++ "1.2.3.4/24" ++ String dquote ""
                     ++ " to inet: Expected a slash")%string).
Proof.
  apply mask_block_never_out_of_range; [|reflexivity].
  apply (reachable_blocks "1.2.3.4/24" 7 initial);
    [apply reachable_initial | vm_compute; reflexivity].
Defined.

(** X9: the scanner passes through at most eight blocks, whatever the length of
    the input: any fuel from 8 on gives the result; 7 is not enough for a
    dotted quad. *)
Theorem scanner_needs_at_most_eight_blocks input fuel :
  (8 <= fuel)%nat ->
  (exists r, run input fuel initial = Some r /\ TryParseIPAddress input = Some r) /\
  run "1.2.3.4" 7 initial = None.
Proof.
  intros Hfuel. split; [|reflexivity].
  destruct (run_within_blocks_left input 8 initial) as [r Hr]; [cbv; lia | cbv; lia |].
  exists r. split; [now apply (run_more _ 8) | now rewrite run_eight].
Qed.

Lemma scanner_needs_at_most_eight_blocks_witness :
  (exists r, run "255.255.255.255/32" 8 initial = Some r /\
             TryParseIPAddress "255.255.255.255/32" = Some r) /\
  run "1.2.3.4" 7 initial = None.
Proof. apply (scanner_needs_at_most_eight_blocks "255.255.255.255/32" 8). lia. Defined.

(** * Further properties of the batch cast *)

Lemma TryParseIPAddress_returns input : exists r, TryParseIPAddress input = Some r.
Proof. rewrite run_eight. apply run_within_blocks_left; cbv; lia. Qed.

Lemma wrap_int32_range z : - 2 ^ 31 <= wrap_int32 z < 2 ^ 31.
Proof.
  unfold wrap_int32.
  pose proof (Z.mod_pos_bound (z + 2 ^ 31) (2 ^ 32) eq_refl). lia.
Qed.

(** The loop returns; it reports success exactly when it leaves no message,
    and exactly when every row of the range that is not null parses. *)
Lemma cast_rows_outcome vdata n i st :
  exists ok e st',
    cast_rows vdata n i st = Some (CastReturn ok e st') /\
    (ok = true <-> e = None) /\
    (ok = true <->
     forall j, (i <= j < i + n)%nat -> validity vdata (sel vdata j) = true ->
               exists inet,
                 TryParseIPAddress (cells vdata (sel vdata j)) = Some (ParseOk inet)).
Proof.
  revert i st. induction n as [|n IH]; intros i st.
  - exists true, None, st. cbn. repeat split; try reflexivity. intros; lia.
  - cbn [cast_rows]. destruct (validity vdata (sel vdata i)) eqn:Hv; cbn [negb].
    + destruct (TryParseIPAddress_returns (cells vdata (sel vdata i))) as [[inet|msg] Hp];
        rewrite Hp.
      * destruct (IH (S i) {| out := {| address_data := <[i := address inet]> (address_data (out st));
                                        mask_data := <[i := mask inet]> (mask_data (out st));
                                        null_rows := null_rows (out st) |};
                              parsed_rows := parsed_rows st ++ [i] |})
          as (ok & e & st' & Hrun & He & Hok).
        exists ok, e, st'. split; [exact Hrun|]. split; [exact He|].
        rewrite Hok. split.
        -- intros Hall j Hj Hvj. destruct (Nat.eq_dec i j) as [<-|Hne]; [eauto|].
           apply Hall; [lia | assumption].
        -- intros Hall j Hj. apply Hall. lia.
      * eexists false, (Some msg), _. split; [reflexivity|].
        split; [split; discriminate|]. split; [discriminate|].
        intros Hall. destruct (Hall i) as [inet Hp']; [lia | assumption |]. congruence.
    + destruct (IH (S i) {| out := SetNull i (out st); parsed_rows := parsed_rows st |})
        as (ok & e & st' & Hrun & He & Hok).
      exists ok, e, st'. split; [exact Hrun|]. split; [exact He|].
      rewrite Hok. split.
      * intros Hall j Hj Hvj. destruct (Nat.eq_dec i j) as [<-|Hne]; [congruence|].
        apply Hall; [lia | assumption].
      * intros Hall j Hj. apply Hall. lia.
Qed.

(** After the loop went through, the log has grown by the rows of the range
    that are not null, in order. *)
Lemma cast_rows_log_success vdata n i st e st' :
  cast_rows vdata n i st = Some (CastReturn true e st') ->
  parsed_rows st'
  = parsed_rows st ++ filter (fun j => validity vdata (sel vdata j) = true) (seq i n).
Proof.
  revert i st. induction n as [|n IH]; intros i st Hrun.
  - cbn in Hrun. injection Hrun as <- <-. cbn. now rewrite app_nil_r.
  - cbn [cast_rows] in Hrun. cbn [seq]. rewrite filter_cons.
    destruct (validity vdata (sel vdata i)) eqn:Hv; cbn [negb] in Hrun.
    + destruct (TryParseIPAddress _) as [[inet|msg]|]; [|discriminate|discriminate].
      apply IH in Hrun. cbn [parsed_rows] in Hrun.
      rewrite decide_True by reflexivity. now rewrite Hrun, <- app_assoc.
    + apply IH in Hrun. cbn [parsed_rows] in Hrun.
      now rewrite decide_False by discriminate.
Qed.

(** The loop reads the source vector at the rows of its range only. *)
Lemma cast_rows_ext v v' n i st :
  (forall j, (i <= j < i + n)%nat ->
             sel v j = sel v' j /\
             validity v (sel v j) = validity v' (sel v' j) /\
             cells v (sel v j) = cells v' (sel v' j)) ->
  cast_rows v n i st = cast_rows v' n i st.
Proof.
  revert i st. induction n as [|n IH]; intros i st Hsame; [reflexivity|].
  cbn [cast_rows]. destruct (Hsame i) as (_ & <- & <-); [lia|].
  destruct (negb (validity v (sel v i))).
  - apply IH. intros j Hj. apply Hsame. lia.
  - destruct (TryParseIPAddress _) as [[inet|msg]|]; try reflexivity.
    apply IH. intros j Hj. apply Hsame. lia.
Qed.

(** X10: where every row that is not null parses, the cast returns [true] and
    leaves no message; the parser has been called once on each such row, in
    row order; each of them holds its address and mask and keeps its null
    flag; each null row is marked and keeps its data; rows from [count] on
    are untouched. *)
Theorem batch_success vdata result count :
  has_room result count ->
  (forall j, (j < count)%nat -> validity vdata (sel vdata j) = true ->
             exists inet,
               TryParseIPAddress (cells vdata (sel vdata j)) = Some (ParseOk inet)) ->
  exists st',
    VarcharToINETCast vdata result count = Some (CastReturn true None st') /\
    parsed_rows st'
    = filter (fun j => validity vdata (sel vdata j) = true) (seq 0 count) /\
    (forall k, (count <= k)%nat -> same_row result (out st') k) /\
    (forall j, (j < count)%nat ->
       if validity vdata (sel vdata j) then
         exists inet,
           TryParseIPAddress (cells vdata (sel vdata j)) = Some (ParseOk inet) /\
           address_data (out st') !! j = Some (address inet) /\
           mask_data (out st') !! j = Some (mask inet) /\
           null_rows (out st') !! j = null_rows result !! j
       else
         null_rows (out st') !! j = Some true /\
         address_data (out st') !! j = address_data result !! j /\
         mask_data (out st') !! j = mask_data result !! j).
Proof.
  intros Hroom Hall. unfold VarcharToINETCast.
  set (st0 := {| out := result; parsed_rows := [] |}).
  destruct (cast_rows_success vdata count 0 st0) as [st' Hrun].
  { intros j Hj. apply Hall. lia. }
  exists st'. split; [exact Hrun|]. split; [|split].
  - now rewrite (cast_rows_log_success _ _ _ _ _ _ Hrun).
  - intros k Hk. apply (cast_rows_frame _ _ _ _ _ _ _ k Hrun). lia.
  - intros j Hj. apply (cast_rows_written vdata count 0 st0 None st' j Hrun); [lia|].
    destruct Hroom as (? & ? & ?). unfold has_room. cbn. lia.
Qed.

Lemma batch_success_witness :
  exists st',
    VarcharToINETCast example_batch example_result 2 = Some (CastReturn true None st') /\
    parsed_rows st'
    = filter (fun j => validity example_batch (sel example_batch j) = true) (seq 0 2) /\
    (forall k, (2 <= k)%nat -> same_row example_result (out st') k) /\
    (forall j, (j < 2)%nat ->
       if validity example_batch (sel example_batch j) then
         exists inet,
           TryParseIPAddress (cells example_batch (sel example_batch j))
           = Some (ParseOk inet) /\
           address_data (out st') !! j = Some (address inet) /\
           mask_data (out st') !! j = Some (mask inet) /\
           null_rows (out st') !! j = null_rows example_result !! j
       else
         null_rows (out st') !! j = Some true /\
         address_data (out st') !! j = address_data example_result !! j /\
         mask_data (out st') !! j = mask_data example_result !! j).
Proof.
  apply (batch_success example_batch example_result 2).
  - unfold has_room. cbn. lia.
  - intros [|[|j]] Hj Hv.
    + eexists. vm_compute. reflexivity.
    + discriminate Hv.
    + lia.
Defined.

(** X11: the cast always returns, never throws; it returns [true] exactly when
    it leaves no message, and exactly when every row below [count] that is
    not null parses. *)
Theorem batch_returns_true_iff_all_rows_parse vdata result count :
  exists ok e st',
    VarcharToINETCast vdata result count = Some (CastReturn ok e st') /\
    (ok = true <-> e = None) /\
    (ok = true <->
     forall j, (j < count)%nat -> validity vdata (sel vdata j) = true ->
               exists inet,
                 TryParseIPAddress (cells vdata (sel vdata j)) = Some (ParseOk inet)).
Proof.
  destruct (cast_rows_outcome vdata count 0 {| out := result; parsed_rows := [] |})
    as (ok & e & st' & Hrun & He & Hok).
  exists ok, e, st'. split; [exact Hrun|]. split; [exact He|].
  rewrite Hok. split; intros Hall j Hj; apply Hall; lia.
Qed.

(** X12: the cast reads the source vector below [count] only: two source vectors
    that agree there give the same outcome. *)
Theorem batch_reads_rows_below_count v v' result count :
  same_rows_below count v v' ->
  VarcharToINETCast v result count = VarcharToINETCast v' result count.
Proof.
  intros Hsame. apply cast_rows_ext. intros j Hj. apply Hsame. lia.
Qed.

Lemma batch_reads_rows_below_count_witness :
  VarcharToINETCast example_batch example_result 3
  = VarcharToINETCast example_batch_longer example_result 3.
Proof.
  apply batch_reads_rows_below_count.
  intros [|[|[|i]]] Hi; [now repeat split .. | lia].
Defined.

(** X13: after a cast that returned [true], every row below [count] that is not
    null holds an address that fits 32 bits, signed, and a mask in [0,255]. *)
Theorem batch_values_in_range vdata result count e st' j :
  VarcharToINETCast vdata result count = Some (CastReturn true e st') ->
  has_room result count -> (j < count)%nat ->
  validity vdata (sel vdata j) = true ->
  exists a m,
    address_data (out st') !! j = Some a /\ mask_data (out st') !! j = Some m /\
    - 2 ^ 31 <= a < 2 ^ 31 /\ 0 <= m <= 255.
Proof.
  intros Hrun Hroom Hj Hv.
  pose proof (cast_rows_written vdata count 0 _ e st' j Hrun) as Hw.
  rewrite Hv in Hw. destruct Hw as (inet & Hp & Ha & Hm & _); [lia| |].
  { destruct Hroom as (? & ? & ?). unfold has_room. cbn. lia. }
  exists (address inet), (mask inet). split; [assumption|]. split; [assumption|].
  apply parse_success_shape in Hp
    as (a & b & c' & d & Oa & Ob & Oc & Od & Haddr & Hshape).
  split; [rewrite Haddr; apply wrap_int32_range|].
  apply is_octet_range in Od.
  destruct Hshape as [[_ ->]|(tail & _ & ->)]; lia.
Qed.

Lemma batch_values_in_range_witness :
  exists a m,
    [pack_octets 1 2 3 4; 7; 7] !! 0%nat = Some a /\
    [32; 9; 9] !! 0%nat = Some m /\
    - 2 ^ 31 <= a < 2 ^ 31 /\ 0 <= m <= 255.
Proof.
  apply (batch_values_in_range example_batch example_result 2 None
           {| out := {| address_data := [pack_octets 1 2 3 4; 7; 7];
                        mask_data := [32; 9; 9];
                        null_rows := [false; true; false] |};
              parsed_rows := [0%nat] |} 0).
  - vm_compute. reflexivity.
  - unfold has_room. cbn. lia.
  - lia.
  - reflexivity.
Defined.

(** X14: a cast that returned [false] returns the same, message and vectors,
    when more rows are put behind the batch. *)
Theorem batch_failure_is_final vdata result count more e st' :
  VarcharToINETCast vdata result count = Some (CastReturn false e st') ->
  VarcharToINETCast vdata result (count + more) = Some (CastReturn false e st').
Proof.
  unfold VarcharToINETCast. intros Hrun. now rewrite cast_rows_split, Hrun.
Qed.

Lemma batch_failure_is_final_witness :
  VarcharToINETCast example_batch example_result (3 + 4)
  = Some (CastReturn false
            (Some ("Failed to convert string " ++ String dquote ""
                   ++ "bad" ++ String dquote ""
                   ++ " to inet: Expected a number")%string)
            {| out := {| address_data := [pack_octets 1 2 3 4; 7; 7];
                         mask_data := [32; 9; 9];
                         null_rows := [false; true; false] |};
               parsed_rows := [0; 2]%nat |}).
Proof. apply batch_failure_is_final. vm_compute. reflexivity. Defined.
